(** * Camera session controller: a shallow embedding of
      [src/components/CameraCapture.tsx]

    The React component keeps the whole session in seven [useState] cells
    and two DOM refs, and talks to the browser through
    [navigator.mediaDevices], [MediaStreamTrack], a canvas and a download
    link.  The component state is the record [SessionState]; everything that
    lives in the browser (refs, track liveness, the calls issued to the host,
    the stream requests still in flight) is the record [World].  Every
    handler of the component is a function
    [SessionState -> World -> World * SessionState]. *)

From Stdlib Require Import ZArith String Ascii Lia.
From stdpp Require Import base decidable option list strings gmap.

Local Open Scope Z_scope.

(** ** JavaScript strings and values *)

(** [s.slice(b, e)] for [0 <= b <= e]: the characters from index [b] up to,
    not including, index [e]; shorter when [s] ends earlier.  Device
    identifiers and ISO dates are ASCII, so a character here is one UTF-16
    code unit there. *)
Definition slice (b e : nat) (s : string) : string :=
  String.substring b (e - b) s.

(** [s.replace(/c/g, d)] for a single-character pattern. *)
Fixpoint replaceAll (c d : ascii) (s : string) : string :=
  match s with
  | EmptyString => EmptyString
  | String a r => String (if Ascii.eqb a c then d else a) (replaceAll c d r)
  end.

(** Does the character [c] occur in [s]? *)
Fixpoint occurs (c : ascii) (s : string) : bool :=
  match s with
  | EmptyString => false
  | String a r => Ascii.eqb a c || occurs c r
  end.

(** Truthiness of a JavaScript string: only the empty string is falsy. *)
Definition truthy (s : string) : bool :=
  match s with
  | EmptyString => false
  | String _ _ => true
  end.

(** [x || d] on a possibly missing number: [undefined] and [0] are falsy. *)
Definition orDefault (x : option Z) (d : Z) : Z :=
  match x with
  | Some v => if Z.eqb v 0 then d else v
  | None => d
  end.

(** ** [Date.prototype.toISOString]

    The host's clock is a time value: milliseconds since the epoch, UTC.
    The rendering follows ECMA-262: [YYYY-MM-DDTHH:mm:ss.sssZ], the year
    with four digits between 0 and 9999 and with a sign and six digits
    outside. *)

Definition digit (n : Z) : ascii := ascii_of_nat (48 + Z.to_nat n).

(** [n] in decimal on exactly [w] digits, zero padded. *)
Fixpoint digits (w : nat) (n : Z) : string :=
  match w with
  | O => EmptyString
  | S w' => digits w' (n / 10) +:+ String (digit (n mod 10)) EmptyString
  end.

Definition msPerDay : Z := 86400000.

Record CivilDate := { cd_year : Z; cd_month : Z; cd_day : Z }.

(** Day number since the epoch to proleptic Gregorian year, month, day. *)
Definition civilFromDays (days : Z) : CivilDate :=
  let z := days + 719468 in
  let era := z / 146097 in
  let doe := z - era * 146097 in
  let yoe := (doe - doe / 1460 + doe / 36524 - doe / 146096) / 365 in
  let doy := doe - (365 * yoe + yoe / 4 - yoe / 100) in
  let mp := (5 * doy + 2) / 153 in
  let d := doy - (153 * mp + 2) / 5 + 1 in
  let m := if mp <? 10 then mp + 3 else mp - 9 in
  {| cd_year := yoe + era * 400 + (if m <=? 2 then 1 else 0);
     cd_month := m;
     cd_day := d |}.

Definition yearString (y : Z) : string :=
  if (0 <=? y) && (y <=? 9999) then digits 4 y
  else (if y <? 0 then "-" else "+") +:+ digits 6 (Z.abs y).

Definition dateString (t : Z) : string :=
  let c := civilFromDays (t / msPerDay) in
  yearString (cd_year c) +:+ "-" +:+ digits 2 (cd_month c) +:+ "-"
    +:+ digits 2 (cd_day c).

Definition hours (t : Z) : Z := (t mod msPerDay) / 3600000.
Definition minutes (t : Z) : Z := ((t mod msPerDay) / 60000) mod 60.
Definition seconds (t : Z) : Z := ((t mod msPerDay) / 1000) mod 60.
Definition millis (t : Z) : Z := t mod 1000.

Definition toISOString (t : Z) : string :=
  dateString t +:+ "T" +:+ digits 2 (hours t) +:+ ":" +:+ digits 2 (minutes t)
    +:+ ":" +:+ digits 2 (seconds t) +:+ "." +:+ digits 3 (millis t) +:+ "Z".

(** ** Host objects *)

(** [MediaDeviceInfo.kind] *)
Inductive DeviceKind := audioinput | audiooutput | videoinput.

Record MediaDeviceInfo := {
  info_deviceId : string;
  info_kind : DeviceKind;
  info_label : string
}.

(** [MediaStreamTrack.kind] *)
Inductive TrackKind := audio | video.

(** [ULongRange]: both bounds are optional. *)
Record ULongRange := { range_max : option Z; range_min : option Z }.

(** The part of [MediaTrackCapabilities] the component reads. *)
Record MediaTrackCapabilities := {
  caps_width : option ULongRange;
  caps_height : option ULongRange
}.

(** A track is an object of the host; [trackId] is its identity.  Whether it
    has been stopped is mutable and lives in the [World]. *)
Record MediaStreamTrack := {
  trackId : nat;
  kind : TrackKind;
  getCapabilities : MediaTrackCapabilities
}.

Record MediaStream := { getTracks : list MediaStreamTrack }.

Record HTMLVideoElement := {
  srcObject : option MediaStream;
  videoWidth : Z;
  videoHeight : Z
}.

(** [has2d] is false when [getContext('2d')] returns [null]. *)
Record HTMLCanvasElement := {
  canvas_width : Z;
  canvas_height : Z;
  has2d : bool
}.

(** What the component asks of the host, in the order it asks.  The
    [console] calls are left out: nothing reads them back. *)
Inductive HostCall :=
| TrackStop (t : nat)
| GetUserMedia (exactDeviceId : option string) (idealWidth idealHeight : Z)
| DrawImage (dx dy dw dh : Z)
| ToDataURL (type : string)
| LinkClick (download href : string).

(** The answer of [navigator.mediaDevices.getUserMedia]: the promise is
    rejected, or resolved with a stream of new tracks. *)
Inductive GetUserMediaReply :=
| Rejected
| Resolved (tracks : list (TrackKind * MediaTrackCapabilities)).

(** ** Component state *)

Record CameraDevice := { deviceId : string; label : string }.

Record CameraCapabilities := { width : Z; height : Z }.

Record SessionState := {
  cameras : list CameraDevice;
  selectedCamera : string;
  stream : option MediaStream;
  capturedImage : option string;
  isLoading : bool;
  error : option string;
  cameraCapabilities : option CameraCapabilities
}.

Record World := {
  videoRef : option HTMLVideoElement;
  canvasRef : option HTMLCanvasElement;
  nextTrackId : nat;             (* the host numbers the tracks it creates *)
  ended : gset nat;              (* tracks on which [stop()] was called *)
  opened : list MediaStream;     (* every stream the host has handed out *)
  inFlight : nat;                (* [getUserMedia] promises not yet settled *)
  calls : list HostCall;         (* oldest first *)
  clock : Z                      (* the time value [new Date()] returns *)
}.

Definition Config : Type := World * SessionState.

#[global] Instance TrackKind_eq_dec : EqDecision TrackKind.
Proof. solve_decision. Defined.
#[global] Instance DeviceKind_eq_dec : EqDecision DeviceKind.
Proof. solve_decision. Defined.

(** The state of a freshly mounted component, lines 16-22. *)
Definition initialState : SessionState :=
  {| cameras := []; selectedCamera := ""; stream := None;
     capturedImage := None; isLoading := false; error := None;
     cameraCapabilities := None |}.

(** The page right after the first render: the video and the canvas are
    mounted, no track exists yet. *)
Definition initialWorld : World :=
  {| videoRef := Some {| srcObject := None; videoWidth := 0; videoHeight := 0 |};
     canvasRef := Some {| canvas_width := 300; canvas_height := 150;
                          has2d := true |};
     nextTrackId := 0%nat; ended := ∅; opened := []; inFlight := 0%nat;
     calls := [];
     clock := 0 |}.

(** *** The [useState] setters *)

Definition setCameras (v : list CameraDevice) (s : SessionState) :=
  {| cameras := v; selectedCamera := selectedCamera s; stream := stream s;
     capturedImage := capturedImage s; isLoading := isLoading s;
     error := error s; cameraCapabilities := cameraCapabilities s |}.

Definition setSelectedCamera (v : string) (s : SessionState) :=
  {| cameras := cameras s; selectedCamera := v; stream := stream s;
     capturedImage := capturedImage s; isLoading := isLoading s;
     error := error s; cameraCapabilities := cameraCapabilities s |}.

Definition setStream (v : option MediaStream) (s : SessionState) :=
  {| cameras := cameras s; selectedCamera := selectedCamera s; stream := v;
     capturedImage := capturedImage s; isLoading := isLoading s;
     error := error s; cameraCapabilities := cameraCapabilities s |}.

Definition setCapturedImage (v : option string) (s : SessionState) :=
  {| cameras := cameras s; selectedCamera := selectedCamera s;
     stream := stream s; capturedImage := v; isLoading := isLoading s;
     error := error s; cameraCapabilities := cameraCapabilities s |}.

Definition setIsLoading (v : bool) (s : SessionState) :=
  {| cameras := cameras s; selectedCamera := selectedCamera s;
     stream := stream s; capturedImage := capturedImage s; isLoading := v;
     error := error s; cameraCapabilities := cameraCapabilities s |}.

Definition setError (v : option string) (s : SessionState) :=
  {| cameras := cameras s; selectedCamera := selectedCamera s;
     stream := stream s; capturedImage := capturedImage s;
     isLoading := isLoading s; error := v;
     cameraCapabilities := cameraCapabilities s |}.

Definition setCameraCapabilities (v : option CameraCapabilities)
    (s : SessionState) :=
  {| cameras := cameras s; selectedCamera := selectedCamera s;
     stream := stream s; capturedImage := capturedImage s;
     isLoading := isLoading s; error := error s; cameraCapabilities := v |}.

(** *** Host primitives acting on the world *)

Definition issue (c : HostCall) (w : World) : World :=
  {| videoRef := videoRef w; canvasRef := canvasRef w;
     nextTrackId := nextTrackId w; ended := ended w; opened := opened w;
     inFlight := inFlight w; calls := calls w ++ [c];
     clock := clock w |}.

(** [track.stop()] *)
Definition stopTrack (w : World) (t : MediaStreamTrack) : World :=
  {| videoRef := videoRef w; canvasRef := canvasRef w;
     nextTrackId := nextTrackId w; ended := {[trackId t]} ∪ ended w;
     opened := opened w; inFlight := inFlight w;
     calls := calls w ++ [TrackStop (trackId t)];
     clock := clock w |}.

(** [stream.getTracks().forEach(track => track.stop())] *)
Definition stopTracks (ms : MediaStream) (w : World) : World :=
  foldl stopTrack w (getTracks ms).

(** The host numbers the tracks of a new stream from [n] on. *)
Fixpoint newTracks (n : nat) (l : list (TrackKind * MediaTrackCapabilities))
    : list MediaStreamTrack :=
  match l with
  | [] => []
  | (k, c) :: r =>
      {| trackId := n; kind := k; getCapabilities := c |} :: newTracks (S n) r
  end.

(** The host resolves one pending [getUserMedia] with a new stream. *)
Definition deliver (l : list (TrackKind * MediaTrackCapabilities)) (w : World)
    : World * MediaStream :=
  let ms := {| getTracks := newTracks (nextTrackId w) l |} in
  ({| videoRef := videoRef w; canvasRef := canvasRef w;
      nextTrackId := (nextTrackId w + length l)%nat; ended := ended w;
      opened := opened w ++ [ms]; inFlight := pred (inFlight w);
      calls := calls w; clock := clock w |}, ms).

(** The host rejects one pending [getUserMedia]. *)
Definition reject (w : World) : World :=
  {| videoRef := videoRef w; canvasRef := canvasRef w;
     nextTrackId := nextTrackId w; ended := ended w; opened := opened w;
     inFlight := pred (inFlight w); calls := calls w;
     clock := clock w |}.

(** [videoRef.current.srcObject = ms], when the ref is attached. *)
Definition bindPreview (ms : MediaStream) (w : World) : World :=
  {| videoRef :=
       match videoRef w with
       | Some v => Some {| srcObject := Some ms; videoWidth := videoWidth v;
                           videoHeight := videoHeight v |}
       | None => None
       end;
     canvasRef := canvasRef w; nextTrackId := nextTrackId w;
     ended := ended w; opened := opened w; inFlight := inFlight w;
     calls := calls w;
     clock := clock w |}.

(** Conversion of an integral number to the IDL type [unsigned long]: the
    value modulo 2^32. *)
Definition toUnsignedLong (x : Z) : Z := x mod 4294967296.

(** The [width] and [height] of a canvas reflect content attributes limited
    to non-negative numbers: a value assigned is converted to [unsigned long]
    and kept when it is at most 2147483647; otherwise the attribute falls
    back to its default, [dflt], which is what is read back. *)
Definition reflectDimension (dflt x : Z) : Z :=
  if toUnsignedLong x <=? 2147483647 then toUnsignedLong x else dflt.

(** The canvas element after [canvas.width = cw; canvas.height = ch]; the
    defaults are 300 and 150. *)
Definition setSize (cw ch : Z) (canvas : HTMLCanvasElement)
    : HTMLCanvasElement :=
  {| canvas_width := reflectDimension 300 cw;
     canvas_height := reflectDimension 150 ch;
     has2d := has2d canvas |}.

(** [canvas.width = cw; canvas.height = ch] on the element of the ref. *)
Definition resizeCanvas (cw ch : Z) (w : World) : World :=
  {| videoRef := videoRef w;
     canvasRef :=
       match canvasRef w with
       | Some c => Some (setSize cw ch c)
       | None => None
       end;
     nextTrackId := nextTrackId w; ended := ended w; opened := opened w;
     inFlight := inFlight w; calls := calls w;
     clock := clock w |}.

(** [mediaStream.getVideoTracks()] *)
Definition getVideoTracks (ms : MediaStream) : list MediaStreamTrack :=
  filter (λ t, kind t = video) (getTracks ms).

(** ** The handlers of the component *)

(** Lines 33-36: the entry shown for an enumerated device. *)
Definition toCameraDevice (d : MediaDeviceInfo) : CameraDevice :=
  {| deviceId := info_deviceId d;
     label := if truthy (info_label d) then info_label d
              else "Camera " +:+ slice 0 8 (info_deviceId d) +:+ "..." |}.

(** Lines 50-65, up to the [await]: release the tracks of the stream this
    render holds, raise the loading flag, clear the error and ask the host
    for a stream.  The function is then suspended until the host answers. *)
Definition startCamera_request (s : SessionState) (w : World) : Config :=
  let w1 := match stream s with
            | Some ms => stopTracks ms w
            | None => w
            end in
  let s1 := setError None (setIsLoading true s) in
  let exact := if truthy (selectedCamera s) then Some (selectedCamera s)
               else None in
  let w2 := issue (GetUserMedia exact 1920 1080) w1 in
  ({| videoRef := videoRef w2; canvasRef := canvasRef w2;
      nextTrackId := nextTrackId w2; ended := ended w2; opened := opened w2;
      inFlight := S (inFlight w2); calls := calls w2;
      clock := clock w2 |}, s1).

(** Lines 67-90, after the [await].  A rejected promise, and the [TypeError]
    of [track.getCapabilities()] when the stream has no video track, both
    land in the [catch]; the [finally] lowers the loading flag. *)
Definition startCamera_settle (r : GetUserMediaReply) (s : SessionState)
    (w : World) : Config :=
  match r with
  | Rejected =>
      (reject w, setIsLoading false (setError (Some "Failed to start camera") s))
  | Resolved l =>
      let '(w1, mediaStream) := deliver l w in
      let s1 := setStream (Some mediaStream) s in
      let w2 := bindPreview mediaStream w1 in
      match getVideoTracks mediaStream !! 0%nat with
      | None =>
          (w2, setIsLoading false
                 (setError (Some "Failed to start camera") s1))
      | Some track =>
          let capabilities := getCapabilities track in
          let s2 :=
            match caps_width capabilities, caps_height capabilities with
            | Some cw, Some ch =>
                setCameraCapabilities
                  (Some {| width := orDefault (range_max cw) 1920;
                           height := orDefault (range_max ch) 1080 |}) s1
            | _, _ => s1
            end in
          (w2, setIsLoading false s2)
      end
  end.

(** [startCamera()] run to completion: the host answers [r] before anything
    else happens. *)
Definition startCamera (r : GetUserMediaReply) (s : SessionState) (w : World)
    : Config :=
  let '(w1, s1) := startCamera_request s w in
  startCamera_settle r s1 w1.

(** [setSelectedCamera(d)] followed by the effect of lines 94-98, which React
    re-runs only when [selectedCamera] has changed, and which starts the
    camera only for a non-empty selection. *)
Definition selectDevice (d : string) (s : SessionState) (w : World) : Config :=
  let s1 := setSelectedCamera d s in
  if decide (d = selectedCamera s) then (w, s1)
  else if truthy d then startCamera_request s1 w
  else (w, s1).

(** Lines 29-45; [None] is a rejected [enumerateDevices()]. *)
Definition getCameras (reply : option (list MediaDeviceInfo))
    (s : SessionState) (w : World) : Config :=
  match reply with
  | Some devices =>
      let videoDevices := filter (λ d, info_kind d = videoinput) devices in
      let s1 := setCameras (toCameraDevice <$> videoDevices) s in
      match videoDevices !! 0%nat with
      | Some first => selectDevice (info_deviceId first) s1 w
      | None => (w, s1)
      end
  | None => (w, setError (Some "Failed to enumerate cameras") s)
  end.

(** Lines 100-125; [dataUrl] is what the host's encoder returns for the
    frame drawn on the canvas.  Line 120 draws at [canvas.width] and
    [canvas.height] as they read back after the assignment of lines 110-117,
    not at the values assigned. *)
Definition capturePhoto (dataUrl : string) (s : SessionState) (w : World)
    : Config :=
  match videoRef w, canvasRef w, stream s with
  | Some v, Some canvas, Some _ =>
      if has2d canvas then
        let '(cw, ch) :=
          match cameraCapabilities s with
          | Some c => (width c, height c)
          | None => (videoWidth v, videoHeight v)
          end in
        let w1 := resizeCanvas cw ch w in
        let resized := setSize cw ch canvas in
        let w2 := issue (DrawImage 0 0 (canvas_width resized)
                           (canvas_height resized)) w1 in
        let w3 := issue (ToDataURL "image/png") w2 in
        (w3, setCapturedImage (Some dataUrl) s)
      else (w, s)
  | _, _, _ => (w, s)
  end.

(** Line 131; [now] is the time value of [new Date()]. *)
Definition downloadName (now : Z) : string :=
  "camera-capture-"
    +:+ replaceAll ":" "-" (slice 0 19 (toISOString now)) +:+ ".png".

(** Lines 127-134; [new Date()] reads the host's clock. *)
Definition downloadPhoto (s : SessionState) (w : World) : Config :=
  match capturedImage s with
  | Some img =>
      if truthy img then (issue (LinkClick (downloadName (clock w)) img) w, s)
      else (w, s)
  | None => (w, s)
  end.

(** Time passes: the host's clock moves on by [dt] milliseconds. *)
Definition tick (dt : Z) (w : World) : World :=
  {| videoRef := videoRef w; canvasRef := canvasRef w;
     nextTrackId := nextTrackId w; ended := ended w; opened := opened w;
     inFlight := inFlight w; calls := calls w; clock := clock w + dt |}.

(** Lines 136-138. *)
Definition retakePhoto (s : SessionState) (w : World) : Config :=
  (w, setCapturedImage None s).

(** Lines 140-146. *)
Definition stopCamera (s : SessionState) (w : World) : Config :=
  match stream s with
  | Some ms => (stopTracks ms w, setCapturedImage None (setStream None s))
  | None => (w, setCapturedImage None s)
  end.

(** ** The session as a transition system

    Everything that can happen to a mounted component: the user changes the
    selection, presses one of the four buttons, or the host settles a pending
    stream request, or time passes.  A settlement with nothing pending
    cannot happen and is ignored. *)
Inductive Event :=
| EvSelect (d : string)
| EvSettle (r : GetUserMediaReply)
| EvCapture (dataUrl : string)
| EvDownload
| EvRetake
| EvStop
| EvTick (dt : Z).

Definition step (e : Event) (c : Config) : Config :=
  let '(w, s) := c in
  match e with
  | EvSelect d => selectDevice d s w
  | EvSettle r =>
      match inFlight w with
      | O => (w, s)
      | S _ => startCamera_settle r s w
      end
  | EvCapture dataUrl => capturePhoto dataUrl s w
  | EvDownload => downloadPhoto s w
  | EvRetake => retakePhoto s w
  | EvStop => stopCamera s w
  | EvTick dt => (tick dt w, s)
  end.

(** Events are consumed oldest first. *)
Definition run (evs : list Event) (c : Config) : Config :=
  foldl (λ c e, step e c) c evs.

(** A track is live until it is stopped; a stream is live while one of its
    tracks is. *)
Definition trackLive (w : World) (t : MediaStreamTrack) : Prop :=
  trackId t ∉ ended w.

Definition streamLive (w : World) (ms : MediaStream) : Prop :=
  Exists (trackLive w) (getTracks ms).

#[global] Instance trackLive_dec w t : Decision (trackLive w t).
Proof. unfold trackLive. apply _. Defined.

#[global] Instance streamLive_dec w ms : Decision (streamLive w ms).
Proof. unfold streamLive. apply _. Defined.

(** The streams handed out by the host that still hold the camera. *)
Definition liveStreams (w : World) : list MediaStream :=
  filter (streamLive w) (opened w).

(** Runs in which the user waits for the host: a new selection is made only
    when no stream request is in flight. *)
Inductive serialized (c : Config) : Config → Prop :=
| ser_here : serialized c c
| ser_select c' d :
    serialized c c' → inFlight c'.1 = 0%nat →
    serialized c (step (EvSelect d) c')
| ser_other c' e :
    serialized c c' → (∀ d, e ≠ EvSelect d) →
    serialized c (step e c').

(** No stream is live but the one the [stream] cell [o] holds. *)
Definition held (o : option MediaStream) (w : World) : Prop :=
  liveStreams w = [] ∨ ∃ ms, o = Some ms ∧ liveStreams w = [ms].

(** What holds between two events of a serialized run: at most one request
    is in flight, nothing is live while it is, and otherwise only the stream
    of the state can be live. *)
Definition oneStream (c : Config) : Prop :=
  (inFlight c.1 ≤ 1)%nat ∧
  (inFlight c.1 = 1%nat → liveStreams c.1 = []) ∧
  held (stream c.2) c.1.

(** The download name the specification describes: the whole ISO-8601
    rendering of the capture time, every colon replaced. *)
Definition specDownloadName (captureTime : Z) : string :=
  "camera-capture-" +:+ replaceAll ":" "-" (toISOString captureTime) +:+ ".png".

(** The track reports no explicit maximum for either dimension. *)
Definition noExplicitMax (c : MediaTrackCapabilities) : Prop :=
  caps_width c ≫= range_max = None ∧ caps_height c ≫= range_max = None.

(** ** Scenarios *)

(** The device list of the scenario: two cameras, the first without label. *)
Definition scenarioDevices : list MediaDeviceInfo :=
  [ {| info_deviceId := "a"; info_kind := videoinput; info_label := "" |};
    {| info_deviceId := "b"; info_kind := videoinput; info_label := "Front" |} ].

(** A camera that negotiates up to 1280 x 720. *)
Definition hd : MediaTrackCapabilities :=
  {| caps_width := Some {| range_max := Some 1280; range_min := Some 1 |};
     caps_height := Some {| range_max := Some 720; range_min := Some 1 |} |}.

(** A running session: camera "a" is selected and its stream was granted. *)
Definition liveConfig : Config :=
  run [EvSelect "a"; EvSettle (Resolved [(video, hd)])]
      (initialWorld, initialState).

(** A data URL as [canvas.toDataURL('image/png')] returns them. *)
Definition somePng : string := "data:image/png;base64,iVBORw0KGgo=".

(** ** What the component renders

    Lines 148-265, without the static markup: the entries of the select,
    the two banners, the preview and the two buttons.  A button carries the
    handler it calls and its [disabled] attribute. *)

(** Truthiness of a [string | null] cell. *)
Definition truthyOpt (o : option string) : bool :=
  match o with
  | Some x => truthy x
  | None => false
  end.

(** [!x] on an object-or-null cell. *)
Definition isNull {A} (o : option A) : bool :=
  match o with
  | Some _ => false
  | None => true
  end.

Inductive Intent := DoCapture | DoStop | DoDownload | DoRetake.

Record Button := { onClick : Intent; disabled : bool }.

Inductive Preview :=
| VideoPreview (loadingOverlay : bool)
| ImagePreview (src : string).

Record View := {
  view_value : string;                        (* [value] of the select *)
  view_options : list (string * string);      (* [value] and text *)
  view_capabilities : option CameraCapabilities;
  view_error : option string;
  view_preview : Preview;
  view_buttons : list Button
}.

#[global] Instance Intent_eq_dec : EqDecision Intent.
Proof. solve_decision. Defined.

Definition render (s : SessionState) : View :=
  {| view_value := selectedCamera s;
     view_options := (λ camera, (deviceId camera, label camera)) <$> cameras s;
     view_capabilities := cameraCapabilities s;
     view_error := if truthyOpt (error s) then error s else None;
     view_preview :=
       match capturedImage s with
       | Some img => if truthy img then ImagePreview img
                     else VideoPreview (isLoading s)
       | None => VideoPreview (isLoading s)
       end;
     view_buttons :=
       if truthyOpt (capturedImage s) then
         [ {| onClick := DoDownload; disabled := false |};
           {| onClick := DoRetake; disabled := false |} ]
       else
         [ {| onClick := DoCapture;
              disabled := isNull (stream s) || isLoading s |};
           {| onClick := DoStop; disabled := isNull (stream s) |} ] |}.

(** The handler behind each button. *)
Definition handler (i : Intent) (dataUrl : string) (s : SessionState)
    (w : World) : Config :=
  match i with
  | DoCapture => capturePhoto dataUrl s w
  | DoStop => stopCamera s w
  | DoDownload => downloadPhoto s w
  | DoRetake => retakePhoto s w
  end.

(** A video element that has just been created: no source, no size. *)
Definition blankVideo : HTMLVideoElement :=
  {| srcObject := None; videoWidth := 0; videoHeight := 0 |}.

(** A canvas element that has just been created. *)
Definition blankCanvas : HTMLCanvasElement :=
  {| canvas_width := 300; canvas_height := 150; has2d := true |}.

(** React commits a render: the refs follow the elements of lines 186-213.
    The canvas is always rendered.  The video is rendered only while there
    is no captured image; it is removed when the image takes its place, and
    a new element is created when the image goes away. *)
Definition commit (c : Config) : Config :=
  let '(w, s) := c in
  ({| videoRef :=
        if truthyOpt (capturedImage s) then None
        else match videoRef w with
             | Some v => Some v
             | None => Some blankVideo
             end;
      canvasRef :=
        match canvasRef w with
        | Some canvas => Some canvas
        | None => Some blankCanvas
        end;
      nextTrackId := nextTrackId w; ended := ended w; opened := opened w;
      inFlight := inFlight w; calls := calls w; clock := clock w |}, s).

(** An event followed by the render it causes. *)
Definition stepRendered (e : Event) (c : Config) : Config :=
  commit (step e c).

Definition runRendered (evs : list Event) (c : Config) : Config :=
  foldl (λ c e, stepRendered e c) c evs.

(** A configuration as a committed render leaves it: the canvas is mounted,
    and the video is mounted exactly when no captured image is shown. *)
Definition rendered (c : Config) : Prop :=
  isNull (videoRef c.1) = truthyOpt (capturedImage c.2) ∧
  isNull (canvasRef c.1) = false.

(** ** Predicates on the host calls and on the world *)

(** A stream request as the component words it: the resolution is an ideal
    of 1920 x 1080, and the device is either left open or named by a
    non-empty identifier. *)
Definition advisory (c : HostCall) : Prop :=
  match c with
  | GetUserMedia exact w h => w = 1920 ∧ h = 1080 ∧ exact ≠ Some ""
  | _ => True
  end.

(** The tracks stopped so far are tracks the host has created. *)
Definition knownTracks (w : World) : Prop :=
  ∀ i, i ∈ ended w → (i < nextTrackId w)%nat.

(** The identifiers of the tracks of the stream the state holds. *)
Definition heldTracks (s : SessionState) : list nat :=
  match stream s with
  | Some ms => trackId <$> getTracks ms
  | None => []
  end.

(** Track identifiers are handed out in order: those stopped and those of
    the stream held are below the next one. *)
Definition wellFormed (c : Config) : Prop :=
  knownTracks c.1 ∧ ∀ i, i ∈ heldTracks c.2 → (i < nextTrackId c.1)%nat.

(** A session: the component is mounted, the enumeration of lines 28-48
    gets its answer, and events follow. *)
Definition session (reply : option (list MediaDeviceInfo))
    (evs : list Event) : Config :=
  run evs (getCameras reply initialState initialWorld).

(** The loading flag tells whether a request is in flight. *)
Definition loadingIsPending (c : Config) : Prop :=
  (inFlight c.1 ≤ 1)%nat ∧ (isLoading c.2 = true ↔ inFlight c.1 = 1%nat).

(** The stream request [startCamera] sends for the selection [d]. *)
Definition requestFor (d : string) : HostCall :=
  GetUserMedia (if truthy d then Some d else None) 1920 1080.

(** * Properties *)

Example toISOString_epoch : toISOString 0 = "1970-01-01T00:00:00.000Z".
Proof. reflexivity. Qed.

Example toISOString_2026 :
  toISOString 1793613845123 = "2026-11-02T10:04:05.123Z".
Proof. vm_compute. reflexivity. Qed.

Example toISOString_leap_day :
  toISOString 951782400000 = "2000-02-29T00:00:00.000Z".
Proof. vm_compute. reflexivity. Qed.

Example toISOString_before_epoch :
  toISOString (-34560001000) = "1968-11-26T23:59:59.000Z".
Proof. vm_compute. reflexivity. Qed.

Example toISOString_year_10000 :
  toISOString 253402300800000 = "+010000-01-01T00:00:00.000Z".
Proof. vm_compute. reflexivity. Qed.

(** ** Stopping the tracks of a stream *)

Section StopTracks.
Variable ms : MediaStream.

Lemma foldl_stopTrack l w :
  foldl stopTrack w l =
  {| videoRef := videoRef w; canvasRef := canvasRef w;
     nextTrackId := nextTrackId w;
     ended := list_to_set (trackId <$> l) ∪ ended w;
     opened := opened w; inFlight := inFlight w;
     calls := calls w ++ (TrackStop <$> (trackId <$> l));
     clock := clock w |}.
Proof.
  revert w. induction l as [|t l IH]; intros w; simpl.
  - destruct w; simpl. f_equal.
    + by rewrite union_empty_l_L.
    + by rewrite app_nil_r.
  - rewrite IH. unfold stopTrack; simpl. f_equal.
    + rewrite (comm_L (∪) {[trackId t]} (list_to_set _)).
      by rewrite (assoc_L (∪)).
    + by rewrite <- app_assoc.
Qed.

Lemma stopTracks_eq w :
  stopTracks ms w =
  {| videoRef := videoRef w; canvasRef := canvasRef w;
     nextTrackId := nextTrackId w;
     ended := list_to_set (trackId <$> getTracks ms) ∪ ended w;
     opened := opened w; inFlight := inFlight w;
     calls := calls w ++ (TrackStop <$> (trackId <$> getTracks ms));
     clock := clock w |}.
Proof. apply foldl_stopTrack. Qed.

Lemma stopTracks_not_live w : ¬ streamLive (stopTracks ms w) ms.
Proof.
  unfold streamLive, trackLive. rewrite stopTracks_eq; simpl.
  rewrite Exists_exists. intros (t & Hin & Hlive). apply Hlive.
  apply elem_of_union_l, elem_of_list_to_set, list_elem_of_fmap.
  by exists t.
Qed.

Lemma stopTracks_live_mono w ms' :
  streamLive (stopTracks ms w) ms' → streamLive w ms'.
Proof.
  unfold streamLive, trackLive. rewrite stopTracks_eq; simpl.
  rewrite !Exists_exists. intros (t & Hin & Hlive).
  exists t. split; [done|]. intros Hended. apply Hlive.
  by apply elem_of_union_r.
Qed.
End StopTracks.

(** ** Stream acquisition *)

(** What a rejected request leaves behind, from any state. *)
Lemma startCamera_rejected_state s w :
  (startCamera Rejected s w).2 =
  setError (Some "Failed to start camera") (setIsLoading false s).
Proof. by destruct s. Qed.

(** C1, evaluated where it fails: a stream with one video track is open, the
    user has picked camera "b" and the host rejects the request.  The error
    message is set, the loading flag is down and the selection is kept, the
    track of the old stream has been stopped, but the [stream] cell still
    holds the old stream. *)
Theorem startCamera_rejected_keeps_stream :
  let old := {| getTracks := [ {| trackId := 0; kind := video;
                                  getCapabilities :=
                                    {| caps_width := None;
                                       caps_height := None |} |} ] |} in
  let s := setSelectedCamera "b" (setStream (Some old) initialState) in
  let w := {| videoRef := videoRef initialWorld;
              canvasRef := canvasRef initialWorld;
              nextTrackId := 1; ended := ∅; opened := [old];
              inFlight := 0; calls := [];
     clock := 0 |} in
  let c := startCamera Rejected s w in
  error c.2 = Some "Failed to start camera" ∧
  isLoading c.2 = false ∧
  selectedCamera c.2 = "b" ∧
  stream c.2 = Some old ∧
  ¬ streamLive c.1 old ∧
  calls c.1 = [TrackStop 0; GetUserMedia (Some "b") 1920 1080].
Proof.
  intros old s w c. repeat split.
  unfold streamLive, trackLive. rewrite Exists_exists.
  intros (t & Hin & Hlive). apply Hlive.
  apply list_elem_of_singleton in Hin as ->. simpl.
  apply elem_of_union_l. by apply elem_of_singleton.
Qed.

(** With no stream open beforehand the rejected request does leave the
    [stream] cell empty. *)
Lemma startCamera_rejected_no_stream s w :
  stream s = None → stream (startCamera Rejected s w).2 = None.
Proof. intros H. by rewrite startCamera_rejected_state. Qed.

(** ** Capability negotiation *)

(** The capabilities of the video tracks of a new stream are those the host
    replied with, in order. *)
Lemma getVideoTracks_newTracks n l :
  getCapabilities <$> getVideoTracks {| getTracks := newTracks n l |} =
  snd <$> filter (λ p, p.1 = video) l.
Proof.
  unfold getVideoTracks; simpl. revert n.
  induction l as [|[k c] l IH]; intros n; [done|]. simpl.
  rewrite !filter_cons; simpl.
  destruct (decide (k = video)); simpl; by rewrite IH.
Qed.

Lemma firstVideoTrack n l c :
  snd <$> filter (λ p, p.1 = video) l !! 0%nat = Some c →
  ∃ track, getVideoTracks {| getTracks := newTracks n l |} !! 0%nat = Some track
           ∧ getCapabilities track = c.
Proof.
  intros H. rewrite <- list_lookup_fmap, <- (getVideoTracks_newTracks n) in H.
  rewrite list_lookup_fmap in H.
  destruct (getVideoTracks _ !! 0%nat) as [t|]; simplify_eq/=. by exists t.
Qed.

(** C3 as stated fails: on a fresh session the host resolves the request with
    a video track that reports neither a width nor a height range (so no
    maximum at all), and the capabilities stay unset instead of becoming
    1920 x 1080. *)
Lemma capabilities_fallback_cex :
  ¬ (∀ (s : SessionState) (w : World) (c : MediaTrackCapabilities)
       (rest : list (TrackKind * MediaTrackCapabilities)),
       noExplicitMax c →
       cameraCapabilities (startCamera (Resolved ((video, c) :: rest)) s w).2 =
       Some {| width := 1920; height := 1080 |}).
Proof.
  intros H.
  specialize (H initialState initialWorld
                {| caps_width := None; caps_height := None |} []).
  assert (noExplicitMax {| caps_width := None; caps_height := None |}) as Hno
    by (by split).
  specialize (H Hno). vm_compute in H. discriminate H.
Qed.

(** C3, amended: when the request is resolved and the first video track of
    the stream reports both a width and a height range, the capabilities
    become the two maxima, 1920 standing in for a missing (or zero) width
    maximum and 1080 for a missing (or zero) height maximum; when the track
    reports no width range or no height range, [startCamera] does not write
    the capabilities: they are what they were, unset on a fresh session. *)
Theorem startCamera_capabilities s w l c :
  snd <$> filter (λ p, p.1 = video) l !! 0%nat = Some c →
  let s' := (startCamera (Resolved l) s w).2 in
  (∀ cw ch, caps_width c = Some cw → caps_height c = Some ch →
     cameraCapabilities s' =
     Some {| width := orDefault (range_max cw) 1920;
             height := orDefault (range_max ch) 1080 |}) ∧
  (∀ cw ch, caps_width c = Some cw → caps_height c = Some ch →
     noExplicitMax c →
     cameraCapabilities s' = Some {| width := 1920; height := 1080 |}) ∧
  (caps_width c = None ∨ caps_height c = None →
     cameraCapabilities s' = cameraCapabilities s) ∧
  isLoading s' = false ∧ error s' = None ∧ is_Some (stream s').
Proof.
  intros Hc s'.
  destruct (firstVideoTrack (nextTrackId w) l c Hc) as (track & Ht & <-).
  assert (Hs : s' = (startCamera (Resolved l) s w).2) by done.
  unfold startCamera, startCamera_request, startCamera_settle, deliver in Hs.
  cbn [nextTrackId issue] in Hs.
  assert (Hn : ∀ ms w0, nextTrackId (stopTracks ms w0) = nextTrackId w0)
    by (intros; by rewrite stopTracks_eq).
  assert (Hid : nextTrackId (match stream s with
                             | Some ms => stopTracks ms w
                             | None => w end) = nextTrackId w)
    by (destruct (stream s); [apply Hn | done]).
  rewrite Hid, Ht in Hs. clear Hid Hn.
  assert (Hcaps : ∀ cw ch, caps_width (getCapabilities track) = Some cw →
            caps_height (getCapabilities track) = Some ch →
            cameraCapabilities s' =
            Some {| width := orDefault (range_max cw) 1920;
                    height := orDefault (range_max ch) 1080 |}).
  { intros cw ch Hw Hh. rewrite Hw, Hh in Hs. by rewrite Hs. }
  split; [exact Hcaps|]. split; [|split; [|split; [|split]]].
  - intros cw ch Hw Hh [Hmw Hmh]. rewrite (Hcaps cw ch Hw Hh).
    rewrite Hw in Hmw. rewrite Hh in Hmh. simpl in Hmw, Hmh.
    by rewrite Hmw, Hmh.
  - intros Hnone. rewrite Hs.
    destruct (caps_width (getCapabilities track)),
             (caps_height (getCapabilities track));
      try done; by destruct Hnone.
  - rewrite Hs. by destruct (caps_width _), (caps_height _).
  - rewrite Hs. by destruct (caps_width _), (caps_height _).
  - rewrite Hs. by destruct (caps_width _), (caps_height _).
Qed.

Lemma startCamera_capabilities_witness :
  cameraCapabilities
    (startCamera
       (Resolved [(video, {| caps_width := Some {| range_max := Some 1280;
                                                   range_min := Some 1 |};
                             caps_height := Some {| range_max := None;
                                                    range_min := None |} |})])
       initialState initialWorld).2 =
  Some {| width := 1280; height := 1080 |}.
Proof.
  exact (proj1 (startCamera_capabilities initialState initialWorld
                  [(video, {| caps_width := Some {| range_max := Some 1280;
                                                    range_min := Some 1 |};
                              caps_height := Some {| range_max := None;
                                                     range_min := None |} |})]
                  _ eq_refl)
           {| range_max := Some 1280; range_min := Some 1 |}
           {| range_max := None; range_min := None |} eq_refl eq_refl).
Defined.

(** ** Device discovery *)

Lemma getCameras_cameras devices s w :
  cameras (getCameras (Some devices) s w).2 =
  toCameraDevice <$> filter (λ d, info_kind d = videoinput) devices.
Proof.
  unfold getCameras, selectDevice, startCamera_request.
  destruct (filter _ devices !! 0%nat) as [first|]; [|done].
  case_decide; [done|]. by destruct (truthy _).
Qed.

Lemma getCameras_selected devices first s w :
  filter (λ d, info_kind d = videoinput) devices !! 0%nat = Some first →
  selectedCamera (getCameras (Some devices) s w).2 = info_deviceId first.
Proof.
  intros H. unfold getCameras, selectDevice, startCamera_request. rewrite H.
  case_decide; [done|]. by destruct (truthy _).
Qed.

(** C4 as stated fails on its own scenario: the entry shown for the unlabelled
    camera "a" is not "Camera a". *)
Lemma synthesized_label_cex :
  label <$> cameras (getCameras (Some scenarioDevices) initialState
                       initialWorld).2
  ≠ ["Camera a"; "Front"].
Proof. vm_compute. discriminate. Qed.

(** C4, amended: every enumerated camera whose label is the empty string is
    listed under "Camera ", the first 8 characters of its deviceId and three
    dots; a camera with a label keeps it.  For the device list
    [{id:"a",label:""}, {id:"b",label:"Front"}] the labels shown are
    "Camera a..." and "Front", and the selection is "a". *)
Theorem getCameras_labels devices s w :
  let s' := (getCameras (Some devices) s w).2 in
  (∀ d, d ∈ devices → info_kind d = videoinput → info_label d = "" →
     {| deviceId := info_deviceId d;
        label := "Camera " +:+ slice 0 8 (info_deviceId d) +:+ "..." |}
     ∈ cameras s') ∧
  (∀ d, d ∈ devices → info_kind d = videoinput → info_label d ≠ "" →
     {| deviceId := info_deviceId d; label := info_label d |} ∈ cameras s') ∧
  (devices = scenarioDevices →
     label <$> cameras s' = ["Camera a..."; "Front"] ∧
     selectedCamera s' = "a").
Proof.
  intros s'. unfold s'. rewrite getCameras_cameras.
  split; [|split].
  - intros d Hin Hk Hl. apply list_elem_of_fmap. exists d. split.
    + unfold toCameraDevice. by rewrite Hl.
    + by apply list_elem_of_filter.
  - intros d Hin Hk Hl. apply list_elem_of_fmap. exists d. split.
    + unfold toCameraDevice. destruct (info_label d); [done | reflexivity].
    + by apply list_elem_of_filter.
  - intros ->. split; [done|].
    by rewrite (getCameras_selected scenarioDevices
                  {| info_deviceId := "a"; info_kind := videoinput;
                     info_label := "" |} s w).
Qed.

Lemma getCameras_labels_witness :
  {| deviceId := "0123456789abcdef"; label := "Camera 01234567..." |}
  ∈ cameras (getCameras
               (Some [ {| info_deviceId := "mic"; info_kind := audioinput;
                          info_label := "" |};
                       {| info_deviceId := "0123456789abcdef";
                          info_kind := videoinput; info_label := "" |} ])
               initialState initialWorld).2.
Proof.
  apply (proj1 (getCameras_labels _ initialState initialWorld)
           {| info_deviceId := "0123456789abcdef"; info_kind := videoinput;
              info_label := "" |}).
  - apply list_elem_of_further, list_elem_of_here.
  - reflexivity.
  - reflexivity.
Defined.

(** A rejected enumeration sets the error and leaves the list as it was. *)
Lemma getCameras_failed s w :
  getCameras None s w = (w, setError (Some "Failed to enumerate cameras") s).
Proof. reflexivity. Qed.

(** ** The name of the downloaded file *)

Lemma append_cons x a b : String x a +:+ b = String x (a +:+ b).
Proof. reflexivity. Qed.

Lemma length_append a b :
  String.length (a +:+ b) = (String.length a + String.length b)%nat.
Proof.
  induction a as [|x a IH]; [done|]. rewrite append_cons. simpl.
  by rewrite IH.
Qed.

Lemma append_assoc a b c : (a +:+ b) +:+ c = a +:+ b +:+ c.
Proof.
  induction a as [|x a IH]; [done|]. by rewrite !append_cons, IH.
Qed.

Lemma substring_prefix a b :
  String.substring 0 (String.length a) (a +:+ b) = a.
Proof.
  induction a as [|x a IH]; [by destruct b|].
  rewrite append_cons. simpl. by rewrite IH.
Qed.

Lemma occurs_append c a b : occurs c (a +:+ b) = occurs c a || occurs c b.
Proof.
  induction a as [|x a IH]; [done|]. rewrite append_cons. simpl.
  rewrite IH. by destruct (Ascii.eqb x c).
Qed.

Lemma replaceAll_append c d a b :
  replaceAll c d (a +:+ b) = replaceAll c d a +:+ replaceAll c d b.
Proof.
  induction a as [|x a IH]; [done|]. rewrite append_cons. simpl.
  by rewrite IH.
Qed.

Lemma replaceAll_absent c d s : occurs c s = false → replaceAll c d s = s.
Proof.
  induction s as [|x s IH]; simpl; [done|].
  intros [Hx Hs]%orb_false_iff. by rewrite Hx, IH.
Qed.

Lemma replaceAll_removes c d s :
  Ascii.eqb d c = false → occurs c (replaceAll c d s) = false.
Proof.
  intros Hd. induction s as [|x s IH]; simpl; [done|].
  rewrite IH, orb_false_r. by destruct (Ascii.eqb x c) eqn:Hx.
Qed.

Lemma digit_not_colon n : Ascii.eqb (digit (n mod 10)) ":" = false.
Proof.
  assert (0 ≤ n mod 10 < 10) as Hr by (apply Z.mod_pos_bound; lia).
  assert (n mod 10 = 0 ∨ n mod 10 = 1 ∨ n mod 10 = 2 ∨ n mod 10 = 3 ∨
          n mod 10 = 4 ∨ n mod 10 = 5 ∨ n mod 10 = 6 ∨ n mod 10 = 7 ∨
          n mod 10 = 8 ∨ n mod 10 = 9) as Hc by lia.
  repeat destruct Hc as [-> | Hc]; try reflexivity. by rewrite Hc.
Qed.

Lemma digits_length w n : String.length (digits w n) = w.
Proof.
  revert n. induction w as [|w IH]; intros n; simpl; [done|].
  rewrite length_append, IH. cbn [String.length]. lia.
Qed.

Lemma digits_no_colon w n : occurs ":" (digits w n) = false.
Proof.
  revert n. induction w as [|w IH]; intros n; simpl; [done|].
  rewrite occurs_append, IH. cbn [occurs orb].
  by rewrite digit_not_colon.
Qed.

Lemma yearString_no_colon y : occurs ":" (yearString y) = false.
Proof.
  unfold yearString. destruct (_ && _); [apply digits_no_colon|].
  rewrite occurs_append, digits_no_colon. by destruct (y <? 0).
Qed.

Lemma dateString_no_colon t : occurs ":" (dateString t) = false.
Proof.
  unfold dateString.
  by rewrite !occurs_append, yearString_no_colon, !digits_no_colon.
Qed.

Lemma dateString_length t :
  0 ≤ cd_year (civilFromDays (t / msPerDay)) ≤ 9999 →
  String.length (dateString t) = 10%nat.
Proof.
  intros [Hlo Hhi]. unfold dateString, yearString.
  apply Z.leb_le in Hlo, Hhi. rewrite Hlo, Hhi. simpl andb. cbv iota.
  by rewrite !length_append, !digits_length.
Qed.

(** For a clock in the years 0 to 9999 the name carries the date and the
    time of day down to the second, and nothing after it. *)
Lemma downloadName_shape now :
  0 ≤ cd_year (civilFromDays (now / msPerDay)) ≤ 9999 →
  downloadName now =
  "camera-capture-" +:+ dateString now +:+ "T" +:+ digits 2 (hours now)
    +:+ "-" +:+ digits 2 (minutes now) +:+ "-" +:+ digits 2 (seconds now)
    +:+ ".png".
Proof.
  intros Hy. unfold downloadName, slice, toISOString.
  set (D := dateString now). set (H := digits 2 (hours now)).
  set (M := digits 2 (minutes now)). set (S := digits 2 (seconds now)).
  set (rest := "." +:+ digits 3 (millis now) +:+ "Z").
  assert (D +:+ "T" +:+ H +:+ ":" +:+ M +:+ ":" +:+ S +:+ rest =
          (D +:+ "T" +:+ H +:+ ":" +:+ M +:+ ":" +:+ S) +:+ rest) as ->
    by (by rewrite !append_assoc).
  assert (String.length (D +:+ "T" +:+ H +:+ ":" +:+ M +:+ ":" +:+ S)
          = (19 - 0)%nat) as <-.
  { rewrite !length_append. unfold D, H, M, S.
    by rewrite (dateString_length now Hy), !digits_length. }
  rewrite substring_prefix, !replaceAll_append.
  unfold D, H, M, S.
  rewrite (replaceAll_absent _ _ (dateString now)) by apply dateString_no_colon.
  rewrite !(replaceAll_absent _ _ (digits _ _)) by apply digits_no_colon.
  simpl replaceAll. by rewrite !append_assoc.
Qed.

Lemma downloadName_no_colon now : occurs ":" (downloadName now) = false.
Proof.
  unfold downloadName. rewrite !occurs_append.
  by rewrite replaceAll_removes.
Qed.

(** The download after a capture at the epoch and a wait of one day, one
    hour, one minute and one second. *)
Example download_after_a_day :
  let c1 := capturePhoto somePng liveConfig.2 liveConfig.1 in
  let c2 := downloadPhoto c1.2 (tick 90061000 c1.1) in
  clock liveConfig.1 = 0 ∧
  capturedImage c1.2 = Some somePng ∧
  last (calls c2.1) =
    Some (LinkClick "camera-capture-1970-01-02T01-01-01.png" somePng) ∧
  specDownloadName 0 = "camera-capture-1970-01-01T00-00-00.000Z.png" ∧
  downloadName 0 = "camera-capture-1970-01-01T00-00-00.png".
Proof. vm_compute. repeat split. Qed.

(** C2 as stated fails: the picture is captured when the clock shows 0, the
    download follows 90061000 ms later, and the file is not named after the
    ISO-8601 rendering of the capture time. *)
Lemma download_name_cex :
  ¬ (∀ (dataUrl : string) (s : SessionState) (w : World) (dt : Z),
       0 ≤ dt →
       let c1 := capturePhoto dataUrl s w in
       capturedImage c1.2 = Some dataUrl → dataUrl ≠ "" →
       let c2 := downloadPhoto c1.2 (tick dt c1.1) in
       last (calls c2.1) =
       Some (LinkClick (specDownloadName (clock w)) dataUrl)).
Proof.
  intros H.
  specialize (H somePng liveConfig.2 liveConfig.1 90061000).
  vm_compute in H.
  assert (Some (LinkClick "camera-capture-1970-01-02T01-01-01.png" somePng) =
          Some (LinkClick "camera-capture-1970-01-01T00-00-00.000Z.png"
                  somePng)) as Heq.
  { apply H; [discriminate | reflexivity | discriminate]. }
  discriminate Heq.
Qed.

(** C2, amended: with a captured image present, [downloadPhoto] hands it to
    the host under the name "camera-capture-<timestamp>.png", where the
    timestamp is the first 19 characters of the ISO-8601 rendering of the
    time of the download (not of the capture), every colon replaced by a
    hyphen: for a clock in the years 0 to 9999 that is YYYY-MM-DDTHH-MM-SS,
    without milliseconds and without the final Z.  The name holds no colon.
    With no captured image the call does nothing, and in either case no
    field of the state changes. *)
Theorem downloadPhoto_exports s w :
  (∀ img, capturedImage s = Some img → img ≠ "" →
     downloadPhoto s w =
     (issue (LinkClick
               ("camera-capture-"
                  +:+ replaceAll ":" "-" (slice 0 19 (toISOString (clock w)))
                  +:+ ".png") img) w, s)) ∧
  (0 ≤ cd_year (civilFromDays (clock w / msPerDay)) ≤ 9999 →
     downloadName (clock w) =
     "camera-capture-" +:+ dateString (clock w) +:+ "T"
       +:+ digits 2 (hours (clock w)) +:+ "-"
       +:+ digits 2 (minutes (clock w)) +:+ "-"
       +:+ digits 2 (seconds (clock w)) +:+ ".png") ∧
  occurs ":" (downloadName (clock w)) = false ∧
  (capturedImage s = None → downloadPhoto s w = (w, s)) ∧
  (downloadPhoto s w).2 = s.
Proof.
  split; [|split; [|split; [|split]]].
  - intros img Himg Hne. unfold downloadPhoto. rewrite Himg.
    destruct img; [done | reflexivity].
  - apply downloadName_shape.
  - apply downloadName_no_colon.
  - intros Hnone. unfold downloadPhoto. by rewrite Hnone.
  - unfold downloadPhoto. destruct (capturedImage s) as [img|]; [|done].
    by destruct (truthy img).
Qed.

Lemma downloadPhoto_exports_witness :
  downloadPhoto (setCapturedImage (Some somePng) liveConfig.2)
    (tick 1793613845123 liveConfig.1) =
  (issue (LinkClick "camera-capture-2026-11-02T10-04-05.png" somePng)
     (tick 1793613845123 liveConfig.1),
   setCapturedImage (Some somePng) liveConfig.2).
Proof.
  pose proof (proj1 (downloadPhoto_exports
                       (setCapturedImage (Some somePng) liveConfig.2)
                       (tick 1793613845123 liveConfig.1))
                somePng eq_refl) as H.
  rewrite H; [|discriminate]. reflexivity.
Defined.

(** ** Stopping the camera *)

Lemma stopCamera_state s w :
  (stopCamera s w).2 = setCapturedImage None (setStream None s).
Proof.
  unfold stopCamera. destruct (stream s) eqn:Hs; [done|].
  destruct s; simpl in *. by subst.
Qed.

(** C5 as stated fails: in the running session of [liveConfig] the camera
    negotiated 1280 x 720, and these capabilities are still there after
    [stopCamera]. *)
Lemma stopCamera_capabilities_cex :
  ¬ (∀ (s : SessionState) (w : World),
       cameraCapabilities (stopCamera s w).2 = None).
Proof.
  intros H. specialize (H liveConfig.2 liveConfig.1).
  vm_compute in H. discriminate H.
Qed.

(** C5, amended: [stopCamera] does not touch the capabilities.  After it the
    state has no stream and no captured image, and the capabilities, the
    device list, the selection, the loading flag and the error are what they
    were: the capabilities negotiated for the stopped stream stay in the
    state. *)
Theorem stopCamera_keeps_capabilities s w :
  let s' := (stopCamera s w).2 in
  cameraCapabilities s' = cameraCapabilities s ∧
  stream s' = None ∧ capturedImage s' = None ∧
  cameras s' = cameras s ∧ selectedCamera s' = selectedCamera s ∧
  isLoading s' = isLoading s ∧ error s' = error s.
Proof. intros s'. unfold s'. by rewrite stopCamera_state. Qed.

(** C8: [stopCamera] twice in a row leaves the same state, and the same
    world, as [stopCamera] once; without a stream it issues no call to the
    host and only clears the captured image. *)
Theorem stopCamera_idempotent s w :
  let c1 := stopCamera s w in
  stopCamera c1.2 c1.1 = c1 ∧
  stream c1.2 = None ∧ capturedImage c1.2 = None ∧
  (stream s = None → c1 = (w, setCapturedImage None s)).
Proof.
  intros c1. unfold c1. split; [|split; [|split]].
  - unfold stopCamera. destruct (stream s) as [ms|] eqn:Hs; [done|].
    simpl. by rewrite Hs.
  - by rewrite stopCamera_state.
  - by rewrite stopCamera_state.
  - intros Hs. unfold stopCamera. by rewrite Hs.
Qed.

Lemma stopCamera_idempotent_witness :
  stopCamera (setCapturedImage (Some somePng) initialState) initialWorld =
  (initialWorld, initialState).
Proof.
  exact (proj2 (proj2 (proj2 (stopCamera_idempotent
                                (setCapturedImage (Some somePng) initialState)
                                initialWorld))) eq_refl).
Defined.

(** ** Capture and retake *)

(** C7: without a stream, without the video element, without the canvas, or
    when the canvas gives no 2d context, [capturePhoto] returns at once:
    the state, with whatever captured image it held, and the world are
    unchanged, and nothing was asked of the host. *)
Theorem capturePhoto_guard dataUrl s w :
  stream s = None ∨ videoRef w = None ∨ canvasRef w = None ∨
    (∃ canvas, canvasRef w = Some canvas ∧ has2d canvas = false) →
  capturePhoto dataUrl s w = (w, s).
Proof.
  unfold capturePhoto.
  intros [Hs | [Hv | [Hc | (canvas & Hc & H2d)]]].
  - rewrite Hs. by destruct (videoRef w), (canvasRef w).
  - by rewrite Hv.
  - rewrite Hc. by destruct (videoRef w).
  - rewrite Hc, H2d. by destruct (videoRef w), (stream s).
Qed.

Lemma capturePhoto_guard_witness :
  capturePhoto somePng initialState initialWorld =
  (initialWorld, initialState).
Proof. apply capturePhoto_guard. left. reflexivity. Defined.

(** Whatever the guards say, a capture changes no field but the captured
    image. *)
Lemma capturePhoto_state dataUrl s w :
  (capturePhoto dataUrl s w).2 = s ∨
  (capturePhoto dataUrl s w).2 = setCapturedImage (Some dataUrl) s.
Proof.
  unfold capturePhoto.
  destruct (videoRef w), (canvasRef w) as [canvas|], (stream s); auto.
  destruct (has2d canvas); auto.
  destruct (cameraCapabilities s); auto.
Qed.

(** C9: [retakePhoto] clears the captured image and nothing else, and after
    [capturePhoto] followed by [retakePhoto] the captured image is unset
    while the stream, the selection and every other field of the state are
    what they were before the pair. *)
Theorem capture_then_retake dataUrl s w :
  let c1 := capturePhoto dataUrl s w in
  let c2 := retakePhoto c1.2 c1.1 in
  retakePhoto s w = (w, setCapturedImage None s) ∧
  c2.2 = setCapturedImage None s ∧
  capturedImage c2.2 = None ∧
  stream c2.2 = stream s ∧ selectedCamera c2.2 = selectedCamera s ∧
  cameras c2.2 = cameras s ∧ isLoading c2.2 = isLoading s ∧
  error c2.2 = error s ∧ cameraCapabilities c2.2 = cameraCapabilities s.
Proof.
  intros c1 c2. split; [done|].
  assert (c2.2 = setCapturedImage None s) as ->; [|done].
  unfold c2, c1, retakePhoto. simpl.
  by destruct (capturePhoto_state dataUrl s w) as [-> | ->].
Qed.

(** A render that has been committed is not changed by committing it
    again. *)
Lemma rendered_commit c : rendered c → commit c = c.
Proof.
  destruct c as [w s]. unfold rendered, commit; simpl. intros [Hv Hc].
  destruct w as [v cv n e o i l t]; simpl in *. f_equal. f_equal.
  - destruct (truthyOpt (capturedImage s)), v; simpl in *; done.
  - by destruct cv.
Qed.

(** C10 as stated fails in its second half.  In the running session of
    [liveConfig] a first capture is taken and rendered: the image has taken
    the place of the video element, and a capture that follows returns at the
    guard of line 101, so the first image stays and is not replaced. *)
Lemma capture_again_cex :
  ¬ (∀ (c : Config) (old new : string),
       rendered c → capturedImage c.2 = Some old → is_Some (stream c.2) →
       capturedImage (step (EvCapture new) c).2 = Some new).
Proof.
  intros H.
  specialize (H (stepRendered (EvCapture somePng) liveConfig) somePng
                "data:image/png;base64,AAAA").
  assert (rendered (stepRendered (EvCapture somePng) liveConfig)) as Hr
    by (split; reflexivity).
  assert (is_Some (stream (stepRendered (EvCapture somePng) liveConfig).2))
    as Hs by (by eexists).
  specialize (H Hr eq_refl Hs). vm_compute in H. discriminate H.
Qed.

(** C10, amended: a capture changes no field of the state but the captured
    image: the stream, the selection, the device list, the capabilities, the
    loading flag and the error are what they were.  In a rendered
    configuration that shows no image, holds a stream and has a canvas with a
    2d context, the capture stores the new data URL as the captured image.
    In a rendered configuration that shows a non-empty captured image, the
    video element is gone and the capture does nothing: the image that is
    there is kept, not replaced. *)
Theorem capturePhoto_rendered dataUrl c :
  let c1 := step (EvCapture dataUrl) c in
  (stream c1.2 = stream c.2 ∧ selectedCamera c1.2 = selectedCamera c.2 ∧
   cameras c1.2 = cameras c.2 ∧
   cameraCapabilities c1.2 = cameraCapabilities c.2 ∧
   isLoading c1.2 = isLoading c.2 ∧ error c1.2 = error c.2) ∧
  (rendered c → truthyOpt (capturedImage c.2) = false →
   is_Some (stream c.2) →
   (∃ canvas, canvasRef c.1 = Some canvas ∧ has2d canvas = true) →
   c1.2 = setCapturedImage (Some dataUrl) c.2) ∧
  (rendered c → truthyOpt (capturedImage c.2) = true →
   c1 = c ∧ stepRendered (EvCapture dataUrl) c = c).
Proof.
  destruct c as [w s]. intros c1. unfold c1. cbn [step fst snd].
  split; [|split].
  - by destruct (capturePhoto_state dataUrl s w) as [-> | ->].
  - intros [Hv _] Himg [ms Hs] (canvas & Hc & H2d). simpl in Hv.
    rewrite Himg in Hv. unfold capturePhoto.
    destruct (videoRef w) as [v|]; [|done].
    rewrite Hc, Hs, H2d. by destruct (cameraCapabilities s).
  - intros Hr Himg.
    assert (capturePhoto dataUrl s w = (w, s)) as Hnoop.
    { destruct Hr as [Hv _]. simpl in Hv. rewrite Himg in Hv.
      unfold capturePhoto. by destruct (videoRef w). }
    split; [done|]. unfold stepRendered. cbn [step]. rewrite Hnoop.
    by apply rendered_commit.
Qed.

Lemma capturePhoto_rendered_witness :
  step (EvCapture "data:image/png;base64,AAAA")
    (stepRendered (EvCapture somePng) liveConfig) =
  stepRendered (EvCapture somePng) liveConfig.
Proof.
  assert (rendered (stepRendered (EvCapture somePng) liveConfig)) as Hr
    by (split; reflexivity).
  exact (proj1 (proj2 (proj2 (capturePhoto_rendered
                                "data:image/png;base64,AAAA"
                                (stepRendered (EvCapture somePng)
                                   liveConfig))) Hr eq_refl)).
Defined.

(** ** One active stream *)

Lemma filter_none {A} (P : A → Prop) `{∀ x, Decision (P x)} (l : list A) :
  (∀ x, x ∈ l → ¬ P x) → filter P l = [].
Proof.
  induction l as [|x l IH]; intros Hl; [done|].
  rewrite filter_cons_False by (apply Hl; left).
  apply IH. intros y Hy. apply Hl. by right.
Qed.

(** Which streams are live depends on the stopped tracks and on the streams
    handed out, and on nothing else in the world. *)
Lemma liveStreams_ext w w' :
  ended w' = ended w → opened w' = opened w → liveStreams w' = liveStreams w.
Proof.
  intros He Ho. unfold liveStreams. rewrite Ho.
  apply list_filter_iff. intros ms. unfold streamLive, trackLive.
  by rewrite He.
Qed.

Lemma liveStreams_stopTracks ms w :
  held (Some ms) w → liveStreams (stopTracks ms w) = [].
Proof.
  intros Hheld. unfold liveStreams.
  assert (opened (stopTracks ms w) = opened w) as ->
    by (by rewrite stopTracks_eq).
  apply filter_none. intros x Hx Hlive.
  assert (x ∈ liveStreams w) as Hin.
  { apply list_elem_of_filter. split; [|done].
    by apply (stopTracks_live_mono ms). }
  destruct Hheld as [Hnil | (ms' & [= <-] & Hone)].
  - rewrite Hnil in Hin. by apply not_elem_of_nil in Hin.
  - rewrite Hone in Hin. apply list_elem_of_singleton in Hin as ->.
    by apply (stopTracks_not_live ms w).
Qed.

Lemma held_None w : held None w → liveStreams w = [].
Proof. by intros [? | (ms & ? & _)]. Qed.

(** Entering [startCamera] releases whatever the state holds. *)
Lemma startCamera_request_live s w :
  held (stream s) w → liveStreams (startCamera_request s w).1 = [].
Proof.
  intros Hheld. unfold startCamera_request.
  destruct (stream s) as [ms|] eqn:Hs.
  - rewrite <- (liveStreams_stopTracks ms w Hheld).
    by apply liveStreams_ext.
  - rewrite <- (held_None w Hheld). by apply liveStreams_ext.
Qed.

Lemma startCamera_request_inFlight s w :
  inFlight (startCamera_request s w).1 = S (inFlight w).
Proof.
  unfold startCamera_request; simpl.
  destruct (stream s); [by rewrite stopTracks_eq | done].
Qed.

(** The calls of [startCamera] up to the [await], in order. *)
Lemma startCamera_request_calls s w ms :
  stream s = Some ms →
  calls (startCamera_request s w).1 =
  calls w ++ (TrackStop <$> (trackId <$> getTracks ms))
    ++ [GetUserMedia (if truthy (selectedCamera s)
                      then Some (selectedCamera s) else None) 1920 1080].
Proof.
  intros Hs. unfold startCamera_request; simpl. rewrite Hs, stopTracks_eq.
  simpl. by rewrite <- app_assoc.
Qed.

Lemma startCamera_request_ended s w ms t :
  stream s = Some ms → t ∈ getTracks ms →
  trackId t ∈ ended (startCamera_request s w).1.
Proof.
  intros Hs Ht. unfold startCamera_request; simpl. rewrite Hs, stopTracks_eq.
  simpl. apply elem_of_union_l, elem_of_list_to_set, list_elem_of_fmap.
  by exists t.
Qed.

(** A settled request leaves the new stream, if any, in the state. *)
Lemma startCamera_settle_held r s w :
  liveStreams w = [] →
  held (stream (startCamera_settle r s w).2) (startCamera_settle r s w).1.
Proof.
  intros Hnil. destruct r as [|l].
  - left. simpl. rewrite <- Hnil. by apply liveStreams_ext.
  - unfold startCamera_settle, deliver.
    set (ms := {| getTracks := newTracks (nextTrackId w) l |}).
    set (w1 := {| videoRef := videoRef w; canvasRef := canvasRef w;
                  nextTrackId := (nextTrackId w + length l)%nat;
                  ended := ended w; opened := opened w ++ [ms];
                  inFlight := pred (inFlight w); calls := calls w;
                  clock := clock w |}).
    assert (Hlive : liveStreams (bindPreview ms w1) = [] ∨
                    liveStreams (bindPreview ms w1) = [ms]).
    { assert (liveStreams (bindPreview ms w1) =
              filter (streamLive w1) (opened w ++ [ms])) as -> by done.
      rewrite filter_app.
      assert (filter (streamLive w1) (opened w) = liveStreams w) as ->
        by (by apply list_filter_iff).
      rewrite Hnil, filter_cons, filter_nil.
      case_decide; auto. }
    assert (Hheld : ∀ s2, stream s2 = Some ms → held (stream s2) (bindPreview ms w1)).
    { intros s2 Hs2. destruct Hlive as [H | H]; [by left | right].
      by exists ms. }
    destruct (getVideoTracks ms !! 0%nat) as [track|]; [|by apply Hheld].
    destruct (caps_width (getCapabilities track)),
             (caps_height (getCapabilities track)); by apply Hheld.
Qed.

Lemma startCamera_settle_inFlight r s w :
  inFlight (startCamera_settle r s w).1 = pred (inFlight w).
Proof.
  destruct r as [|l]; [done|]. unfold startCamera_settle, deliver.
  destruct (getVideoTracks _ !! 0%nat) as [track|]; [|done].
  by destruct (caps_width (getCapabilities track)),
              (caps_height (getCapabilities track)).
Qed.

(** Capture, download, retake and the passing of time neither stop a track
    nor touch the stream. *)
Lemma capturePhoto_world dataUrl s w :
  let c := capturePhoto dataUrl s w in
  ended c.1 = ended w ∧ opened c.1 = opened w ∧ inFlight c.1 = inFlight w ∧
  stream c.2 = stream s.
Proof.
  destruct (capturePhoto_state dataUrl s w) as [Hst | Hst];
    simpl; rewrite Hst; (split; [|split; [|split]]); try done;
    unfold capturePhoto;
    destruct (videoRef w), (canvasRef w) as [canvas|], (stream s); try done;
    destruct (has2d canvas); try done;
    by destruct (cameraCapabilities s).
Qed.

Lemma downloadPhoto_world s w :
  let c := downloadPhoto s w in
  ended c.1 = ended w ∧ opened c.1 = opened w ∧ inFlight c.1 = inFlight w ∧
  stream c.2 = stream s.
Proof.
  unfold downloadPhoto. destruct (capturedImage s) as [img|]; [|done].
  by destruct (truthy img).
Qed.

(** An event that changes neither the tracks nor the stream keeps
    [oneStream]. *)
Lemma oneStream_frame (c c' : Config) :
  ended c'.1 = ended c.1 → opened c'.1 = opened c.1 →
  inFlight c'.1 = inFlight c.1 → stream c'.2 = stream c.2 →
  oneStream c → oneStream c'.
Proof.
  intros He Ho Hi Hs (Hle & Hone & Hheld). unfold oneStream, held in *.
  rewrite (liveStreams_ext c.1 c'.1 He Ho), Hi, Hs.
  exact (conj Hle (conj Hone Hheld)).
Qed.

Lemma oneStream_step_select d w s :
  inFlight w = 0%nat → oneStream (w, s) → oneStream (step (EvSelect d) (w, s)).
Proof.
  intros Hidle Hinv. unfold step, selectDevice.
  case_decide; [by apply (oneStream_frame (w, s))|].
  destruct (truthy d); [|by apply (oneStream_frame (w, s))].
  destruct Hinv as (_ & _ & Hheld).
  assert (liveStreams (startCamera_request (setSelectedCamera d s) w).1 = [])
    as Hnil by (by apply startCamera_request_live).
  split; [|split].
  - rewrite startCamera_request_inFlight. simpl in Hidle. lia.
  - done.
  - by left.
Qed.

Lemma oneStream_step_settle r w s :
  oneStream (w, s) → oneStream (step (EvSettle r) (w, s)).
Proof.
  intros Hinv. unfold step. destruct (inFlight w) as [|n] eqn:Hn; [done|].
  destruct Hinv as (Hle & Hone & _). simpl in Hle, Hone.
  assert (n = 0%nat) as -> by lia.
  split; [|split].
  - rewrite startCamera_settle_inFlight, Hn. simpl. lia.
  - rewrite startCamera_settle_inFlight, Hn. done.
  - apply startCamera_settle_held. by apply Hone.
Qed.

Lemma oneStream_step_stop w s : oneStream (w, s) → oneStream (stopCamera s w).
Proof.
  intros (Hle & Hone & Hheld). simpl in *. unfold stopCamera.
  destruct (stream s) as [ms|] eqn:Hs.
  - assert (liveStreams (stopTracks ms w) = []) as Hnil
      by (by apply liveStreams_stopTracks).
    assert (inFlight (stopTracks ms w) = inFlight w) as Hi
      by (by rewrite stopTracks_eq).
    split; [|split]; simpl; [by rewrite Hi | done | by left].
  - split; [|split]; simpl; [done | done |].
    left. by apply held_None.
Qed.

(** [oneStream] is kept by every event of a serialized run. *)
Lemma oneStream_serialized c c' :
  oneStream c → serialized c c' → oneStream c'.
Proof.
  intros Hinv Hrun. induction Hrun as [|[w s] d _ IH Hidle|[w s] e _ IH Hne].
  - done.
  - by apply oneStream_step_select.
  - destruct e as [d|r|dataUrl| | | |dt].
    + by destruct (Hne d).
    + by apply oneStream_step_settle.
    + pose proof (capturePhoto_world dataUrl s w) as (? & ? & ? & ?).
      by apply (oneStream_frame (w, s)).
    + pose proof (downloadPhoto_world s w) as (? & ? & ? & ?).
      by apply (oneStream_frame (w, s)).
    + by apply (oneStream_frame (w, s)).
    + by apply oneStream_step_stop.
    + by apply (oneStream_frame (w, s)).
Qed.

Lemma oneStream_initial : oneStream (initialWorld, initialState).
Proof. split; [|split]; simpl; [lia | done | by left]. Qed.

(** Two selections in a row, both granted afterwards: the stream of camera
    "a" is never stopped and is live next to the stream of camera "b". *)
Example two_selections_in_flight :
  let c := run [EvSelect "a"; EvSelect "b";
                EvSettle (Resolved [(video, hd)]);
                EvSettle (Resolved [(video, hd)])]
               (initialWorld, initialState) in
  trackId <$> (liveStreams c.1 ≫= getTracks) = [0%nat; 1%nat] ∧
  (λ ms, trackId <$> getTracks ms) <$> stream c.2 = Some [1%nat] ∧
  calls c.1 = [GetUserMedia (Some "a") 1920 1080;
               GetUserMedia (Some "b") 1920 1080].
Proof. vm_compute. repeat split. Qed.

(** C6 as stated fails: the user selects camera "a" and then camera "b"
    before the host has answered; both requests are granted, and two streams
    with live tracks exist. *)
Lemma one_active_stream_cex :
  ¬ (∀ evs : list Event,
       (length (liveStreams (run evs (initialWorld, initialState)).1) ≤ 1)%nat).
Proof.
  intros H.
  specialize (H [EvSelect "a"; EvSelect "b";
                 EvSettle (Resolved [(video, hd)]);
                 EvSettle (Resolved [(video, hd)])]).
  vm_compute in H. lia.
Qed.

(** C6, amended: in every run in which a selection is made only when no
    stream request is in flight, at most one stream with live tracks exists
    after every event, and it is the stream the state holds; and whenever
    [startCamera] is entered there with a stream in the state, every track
    of that stream is stopped before the request goes to the host, so that
    no stream is live while the request is pending. *)
Theorem one_active_stream c c' :
  oneStream c → serialized c c' →
  (length (liveStreams c'.1) ≤ 1)%nat ∧
  (∀ ms, ms ∈ liveStreams c'.1 → stream c'.2 = Some ms) ∧
  (∀ ms, stream c'.2 = Some ms →
     let w' := (startCamera_request c'.2 c'.1).1 in
     calls w' =
       calls c'.1 ++ (TrackStop <$> (trackId <$> getTracks ms))
         ++ [GetUserMedia (if truthy (selectedCamera c'.2)
                           then Some (selectedCamera c'.2) else None)
               1920 1080] ∧
     (∀ t, t ∈ getTracks ms → trackId t ∈ ended w') ∧
     liveStreams w' = []).
Proof.
  intros Hinv Hrun.
  destruct (oneStream_serialized c c' Hinv Hrun) as (_ & _ & Hheld).
  split; [|split].
  - destruct Hheld as [-> | (ms & _ & ->)]; simpl; lia.
  - intros ms Hin. destruct Hheld as [Hnil | (ms' & Hs & Hone)].
    + rewrite Hnil in Hin. by apply not_elem_of_nil in Hin.
    + rewrite Hone in Hin. by apply list_elem_of_singleton in Hin as ->.
  - intros ms Hs w'. split; [|split].
    + by apply startCamera_request_calls.
    + intros t Ht. by apply (startCamera_request_ended _ _ ms).
    + by apply startCamera_request_live.
Qed.

Lemma one_active_stream_witness :
  let c' := run [EvSelect "a"; EvSettle (Resolved [(video, hd)]);
                 EvSelect "b"; EvSettle (Resolved [(video, hd)])]
                (initialWorld, initialState) in
  (length (liveStreams c'.1) ≤ 1)%nat ∧
  (∀ ms, ms ∈ liveStreams c'.1 → stream c'.2 = Some ms).
Proof.
  intros c'.
  assert (Hinit : oneStream (initialWorld, initialState)).
  { split; [|split]; simpl; [lia | done | by left]. }
  assert (Hrun : serialized (initialWorld, initialState) c').
  { change c' with
      (step (EvSettle (Resolved [(video, hd)]))
         (step (EvSelect "b")
            (step (EvSettle (Resolved [(video, hd)]))
               (step (EvSelect "a") (initialWorld, initialState))))).
    apply ser_other; [|done].
    apply ser_select; [|reflexivity].
    apply ser_other; [|done].
    apply ser_select; [|reflexivity].
    apply ser_here. }
  destruct (one_active_stream _ _ Hinit Hrun) as (Hle & Hheld & _).
  by split.
Defined.

(** The serialized run of the witness ends with the stream of camera "b"
    alone. *)
Example select_wait_select :
  let c' := run [EvSelect "a"; EvSettle (Resolved [(video, hd)]);
                 EvSelect "b"; EvSettle (Resolved [(video, hd)])]
                (initialWorld, initialState) in
  trackId <$> (liveStreams c'.1 ≫= getTracks) = [1%nat] ∧
  calls c'.1 = [GetUserMedia (Some "a") 1920 1080; TrackStop 0;
                GetUserMedia (Some "b") 1920 1080].
Proof. vm_compute. repeat split. Qed.

(** * Further properties of the component *)

(** ** Device discovery, lines 28-48 *)

Lemma truthy_nonempty s : truthy s = true ↔ s ≠ "".
Proof. destruct s; simpl; split; intros; done. Qed.

Lemma substring_length_le n m s :
  (String.length (String.substring n m s) ≤ m)%nat.
Proof.
  revert n m. induction s as [|x s IH]; intros [|n] [|m]; simpl; try lia.
  - specialize (IH 0%nat m). lia.
  - apply (IH n 0%nat).
  - apply (IH n (S m)).
Qed.

Lemma substring_length_full m s :
  (m ≤ String.length s)%nat →
  String.length (String.substring 0 m s) = m.
Proof.
  revert m. induction s as [|x s IH]; intros [|m] Hm; simpl in *; try lia.
  rewrite IH; lia.
Qed.

(** X1: no entry of the camera list has an empty label, whatever the host
    reports. *)
Theorem getCameras_no_blank_label devices s w camera :
  camera ∈ cameras (getCameras (Some devices) s w).2 → label camera ≠ "".
Proof.
  rewrite getCameras_cameras. intros (d & -> & _)%list_elem_of_fmap.
  unfold toCameraDevice; simpl.
  destruct (truthy (info_label d)) eqn:Hl; [by apply truthy_nonempty|].
  discriminate.
Qed.

Lemma getCameras_no_blank_label_witness :
  label {| deviceId := ""; label := "Camera ..." |} ≠ "".
Proof.
  apply (getCameras_no_blank_label
           [ {| info_deviceId := ""; info_kind := videoinput;
                info_label := "" |} ] initialState initialWorld).
  apply list_elem_of_here.
Defined.

(** X2: the camera list holds the video inputs and nothing else, in the
    order of the host and under their own identifiers; audio devices are
    dropped. *)
Theorem getCameras_video_inputs devices s w :
  deviceId <$> cameras (getCameras (Some devices) s w).2 =
  info_deviceId <$> filter (λ d, info_kind d = videoinput) devices ∧
  (∀ camera, camera ∈ cameras (getCameras (Some devices) s w).2 →
     ∃ d, d ∈ devices ∧ info_kind d = videoinput ∧
          deviceId camera = info_deviceId d) ∧
  (length (cameras (getCameras (Some devices) s w).2) ≤ length devices)%nat.
Proof.
  rewrite getCameras_cameras. split; [|split].
  - rewrite <- list_fmap_compose. by apply list_fmap_ext.
  - intros camera (d & -> & [Hk Hd]%list_elem_of_filter)%list_elem_of_fmap.
    by exists d.
  - rewrite length_fmap. apply length_filter.
Qed.

Lemma getCameras_video_inputs_witness :
  ∃ d, d ∈ scenarioDevices ∧ info_kind d = videoinput ∧
       deviceId {| deviceId := "b"; label := "Front" |} = info_deviceId d.
Proof.
  apply (proj1 (proj2 (getCameras_video_inputs scenarioDevices initialState
                         initialWorld))).
  apply list_elem_of_further, list_elem_of_here.
Defined.

(** X3: the label made up for an unlabelled camera has at most 18
    characters, and exactly 18 when the identifier has 8 or more. *)
Theorem synthesized_label_length d :
  info_label d = "" →
  (String.length (label (toCameraDevice d)) ≤ 18)%nat ∧
  ((8 ≤ String.length (info_deviceId d))%nat →
   String.length (label (toCameraDevice d)) = 18%nat).
Proof.
  intros Hl. unfold toCameraDevice, slice; simpl. rewrite Hl; simpl.
  rewrite !length_append; simpl. split.
  - pose proof (substring_length_le 0 8 (info_deviceId d)). lia.
  - intros Hlen. rewrite substring_length_full by done. lia.
Qed.

Lemma synthesized_label_length_witness :
  String.length
    (label (toCameraDevice
              {| info_deviceId := "0123456789abcdef"; info_kind := videoinput;
                 info_label := "" |})) = 18%nat.
Proof.
  apply (proj2 (synthesized_label_length
                  {| info_deviceId := "0123456789abcdef";
                     info_kind := videoinput; info_label := "" |} eq_refl)).
  simpl. lia.
Defined.

(** ** Selection and start of the stream, lines 50-98 *)

(** [startCamera] up to the [await], for any state: the tracks held are
    stopped in order, then the request is sent. *)
Lemma startCamera_request_log s w :
  calls (startCamera_request s w).1 =
  calls w ++ (TrackStop <$> heldTracks s) ++ [requestFor (selectedCamera s)].
Proof.
  unfold startCamera_request, heldTracks, requestFor; simpl.
  destruct (stream s) as [ms|]; simpl; [|done].
  rewrite stopTracks_eq; simpl. by rewrite <- app_assoc.
Qed.

Lemma setSelectedCamera_same s : setSelectedCamera (selectedCamera s) s = s.
Proof. by destruct s. Qed.

Lemma selectDevice_idle_eq d s w :
  d = selectedCamera s ∨ d = "" →
  selectDevice d s w = (w, setSelectedCamera d s).
Proof.
  intros Hd. unfold selectDevice.
  case_decide; [done|]. destruct Hd as [-> | ->]; done.
Qed.

Lemma selectDevice_start_eq d s w :
  d ≠ selectedCamera s → d ≠ "" →
  selectDevice d s w = startCamera_request (setSelectedCamera d s) w.
Proof.
  intros Hne Hd%truthy_nonempty. unfold selectDevice.
  case_decide; [done|]. by rewrite Hd.
Qed.

(** What a selection that starts the camera leaves behind. *)
Lemma selectDevice_start_facts d s w :
  d ≠ selectedCamera s → d ≠ "" →
  let c := selectDevice d s w in
  selectedCamera c.2 = d ∧ isLoading c.2 = true ∧ error c.2 = None ∧
  stream c.2 = stream s ∧ capturedImage c.2 = capturedImage s ∧
  cameraCapabilities c.2 = cameraCapabilities s ∧
  inFlight c.1 = S (inFlight w) ∧
  calls c.1 =
    calls w ++ (TrackStop <$> heldTracks s)
      ++ [GetUserMedia (Some d) 1920 1080].
Proof.
  intros Hne Hd c. unfold c. rewrite (selectDevice_start_eq d s w Hne Hd).
  apply truthy_nonempty in Hd as Ht.
  rewrite startCamera_request_inFlight, startCamera_request_log.
  unfold requestFor; simpl. rewrite Ht. by repeat split.
Qed.

(** X4: selecting the camera that is already selected, or the empty
    selection, starts nothing: no track is stopped, no request is sent, and
    only the selection is written. *)
Theorem selectDevice_idle d s w :
  d = selectedCamera s ∨ d = "" →
  selectDevice d s w = (w, setSelectedCamera d s) ∧
  (d = selectedCamera s → selectDevice d s w = (w, s)).
Proof.
  intros Hd. split; [by apply selectDevice_idle_eq|].
  intros ->. rewrite selectDevice_idle_eq by (by left).
  by rewrite setSelectedCamera_same.
Qed.

Lemma selectDevice_idle_witness :
  selectDevice "a" liveConfig.2 liveConfig.1 = liveConfig.
Proof.
  exact (proj2 (selectDevice_idle "a" liveConfig.2 liveConfig.1
                  (or_introl eq_refl)) eq_refl).
Defined.

(** X5: selecting another, non-empty camera records the selection, raises
    the loading flag, clears the error, stops the tracks of the stream held
    and then sends one request naming exactly that camera with the ideal
    resolution 1920 x 1080; the stream cell, the captured image and the
    capabilities are not written before the host answers. *)
Theorem selectDevice_starts d s w :
  d ≠ selectedCamera s → d ≠ "" →
  let c := selectDevice d s w in
  selectedCamera c.2 = d ∧ isLoading c.2 = true ∧ error c.2 = None ∧
  stream c.2 = stream s ∧ capturedImage c.2 = capturedImage s ∧
  cameraCapabilities c.2 = cameraCapabilities s ∧
  inFlight c.1 = S (inFlight w) ∧
  calls c.1 =
    calls w ++ (TrackStop <$> heldTracks s)
      ++ [GetUserMedia (Some d) 1920 1080].
Proof.
  intros Hne Hd. by apply selectDevice_start_facts.
Qed.

Lemma selectDevice_starts_witness :
  calls (selectDevice "b" liveConfig.2 liveConfig.1).1 =
  [GetUserMedia (Some "a") 1920 1080; TrackStop 0;
   GetUserMedia (Some "b") 1920 1080].
Proof.
  assert ("b" ≠ selectedCamera liveConfig.2) as H1 by discriminate.
  assert ("b" ≠ "") as H2 by discriminate.
  pose proof (selectDevice_starts "b" liveConfig.2 liveConfig.1 H1 H2) as H.
  simpl in H. destruct H as (_ & _ & _ & _ & _ & _ & _ & H). exact H.
Defined.

(** X6: after a successful enumeration the first video input becomes the
    selection and its stream is requested at once, provided its identifier
    is not empty and differs from the selection so far. *)
Theorem getCameras_autostart devices first s w :
  filter (λ d, info_kind d = videoinput) devices !! 0%nat = Some first →
  info_deviceId first ≠ "" → info_deviceId first ≠ selectedCamera s →
  let c := getCameras (Some devices) s w in
  selectedCamera c.2 = info_deviceId first ∧ isLoading c.2 = true ∧
  inFlight c.1 = S (inFlight w) ∧
  calls c.1 =
    calls w ++ (TrackStop <$> heldTracks s)
      ++ [GetUserMedia (Some (info_deviceId first)) 1920 1080].
Proof.
  intros Hfirst Hid Hne c. unfold c, getCameras. rewrite Hfirst.
  pose proof (selectDevice_start_facts (info_deviceId first)
                (setCameras (toCameraDevice <$>
                   filter (λ d, info_kind d = videoinput) devices) s) w
                Hne Hid) as H.
  simpl in H. destruct H as (H1 & H2 & _ & _ & _ & _ & H3 & H4).
  by repeat split.
Qed.

Lemma getCameras_autostart_witness :
  calls (getCameras (Some scenarioDevices) initialState initialWorld).1 =
  [GetUserMedia (Some "a") 1920 1080].
Proof.
  assert (filter (λ d, info_kind d = videoinput) scenarioDevices !! 0%nat =
          Some {| info_deviceId := "a"; info_kind := videoinput;
                  info_label := "" |}) as H0 by reflexivity.
  assert ("a" ≠ "") as H1 by discriminate.
  assert ("a" ≠ selectedCamera initialState) as H2 by discriminate.
  pose proof (getCameras_autostart scenarioDevices _ initialState
                initialWorld H0 H1 H2) as H.
  simpl in H. destruct H as (_ & _ & _ & H). exact H.
Defined.

(** X7: the enumeration starts no stream when it fails, when the host lists
    no video input, or when the first video input has an empty identifier or
    is the camera already selected: the world is left as it was, and so are
    the stream cell and the loading flag. *)
Theorem getCameras_no_start reply s w :
  reply = None ∨
  (∃ devices, reply = Some devices ∧
     (filter (λ d, info_kind d = videoinput) devices = [] ∨
      ∃ first,
        filter (λ d, info_kind d = videoinput) devices !! 0%nat = Some first ∧
        (info_deviceId first = "" ∨ info_deviceId first = selectedCamera s))) →
  (getCameras reply s w).1 = w ∧
  stream (getCameras reply s w).2 = stream s ∧
  isLoading (getCameras reply s w).2 = isLoading s.
Proof.
  intros [-> | (devices & -> & [Hnil | (first & Hfirst & Hid)])].
  - done.
  - unfold getCameras. by rewrite Hnil.
  - unfold getCameras. rewrite Hfirst.
    assert (selectDevice (info_deviceId first)
              (setCameras (toCameraDevice <$>
                 filter (λ d, info_kind d = videoinput) devices) s) w =
            (w, setSelectedCamera (info_deviceId first)
                  (setCameras (toCameraDevice <$>
                     filter (λ d, info_kind d = videoinput) devices) s)))
      as ->; [|done].
    apply selectDevice_idle_eq. destruct Hid as [-> | ->]; auto.
Qed.

Lemma getCameras_no_start_witness :
  (getCameras
     (Some [ {| info_deviceId := ""; info_kind := videoinput;
                info_label := "" |} ]) initialState initialWorld).1 =
  initialWorld.
Proof.
  apply (getCameras_no_start _ initialState initialWorld).
  right. eexists. split; [reflexivity|]. right. eexists.
  split; [reflexivity|]. by left.
Defined.

(** ** Outcome of [startCamera], lines 55-90 *)

Lemma startCamera_settle_outcome r s w :
  let s' := (startCamera_settle r s w).2 in
  isLoading s' = false ∧
  selectedCamera s' = selectedCamera s ∧ cameras s' = cameras s ∧
  capturedImage s' = capturedImage s ∧
  (error s' = error s ∨ error s' = Some "Failed to start camera").
Proof.
  destruct r as [|l]; simpl; [by auto 10|].
  unfold startCamera_settle, deliver.
  destruct (getVideoTracks _ !! 0%nat) as [track|]; [|by auto 10].
  by destruct (caps_width (getCapabilities track)),
              (caps_height (getCapabilities track)); auto 10.
Qed.

Lemma startCamera_settle_error r s w :
  error s = None →
  let s' := (startCamera_settle r s w).2 in
  (error s' = Some "Failed to start camera" ∨ error s' = None) ∧
  (error s' = None ↔
   ∃ l p, r = Resolved l ∧ filter (λ p, p.1 = video) l !! 0%nat = Some p).
Proof.
  intros He. destruct r as [|l]; simpl.
  { split; [by left|]. split; [done | by intros (l & p & H & _)]. }
  unfold startCamera_settle, deliver.
  set (ms := {| getTracks := newTracks (nextTrackId w) l |}).
  pose proof (getVideoTracks_newTracks (nextTrackId w) l) as Hv. fold ms in Hv.
  apply (f_equal (λ x, x !! 0%nat)) in Hv. rewrite !list_lookup_fmap in Hv.
  destruct (getVideoTracks ms !! 0%nat) as [track|] eqn:Ht.
  - destruct (filter (λ p, p.1 = video) l !! 0%nat) as [p|] eqn:Hp; [|done].
    assert (error (setStream (Some ms) s) = None) as He' by done.
    destruct (caps_width (getCapabilities track)),
             (caps_height (getCapabilities track)); simpl;
      (split; [by right|]); (split; [intros _; by exists l, p | done]).
  - simpl. split; [by left|]. split; [done|].
    intros (l' & p & [= <-] & Hp). by rewrite Hp in Hv.
Qed.

(** X8: whatever the host answers, [startCamera] ends with the loading flag
    down and with the selection, the device list and the captured image
    untouched.  The error is "Failed to start camera" exactly when the
    request is rejected or the stream granted has no video track; otherwise
    an earlier error is gone. *)
Theorem startCamera_outcome r s w :
  let s' := (startCamera r s w).2 in
  isLoading s' = false ∧
  selectedCamera s' = selectedCamera s ∧ cameras s' = cameras s ∧
  capturedImage s' = capturedImage s ∧
  (error s' = Some "Failed to start camera" ∨ error s' = None) ∧
  (error s' = None ↔
   ∃ l p, r = Resolved l ∧ filter (λ p, p.1 = video) l !! 0%nat = Some p).
Proof.
  intros s'.
  assert (s' = (startCamera_settle r (setError None (setIsLoading true s))
                  (startCamera_request s w).1).2) as -> by done.
  pose proof (startCamera_settle_outcome r
                (setError None (setIsLoading true s))
                (startCamera_request s w).1) as (H1 & H2 & H3 & H4 & _).
  pose proof (startCamera_settle_error r
                (setError None (setIsLoading true s))
                (startCamera_request s w).1 eq_refl) as (H5 & H6).
  exact (conj H1 (conj H2 (conj H3 (conj H4 (conj H5 H6))))).
Qed.

Lemma startCamera_outcome_witness :
  error (startCamera (Resolved [(video, hd)])
           (setError (Some "Failed to enumerate cameras") initialState)
           initialWorld).2 = None.
Proof.
  apply (proj2 (proj2 (proj2 (proj2 (proj2
           (startCamera_outcome (Resolved [(video, hd)])
              (setError (Some "Failed to enumerate cameras") initialState)
              initialWorld)))))).
  exists [(video, hd)], (video, hd). by split.
Defined.

(** ** What the component asks of the host *)

Lemma advisory_requestFor d : advisory (requestFor d).
Proof.
  unfold requestFor; simpl. repeat split.
  destruct d; simpl; [done | discriminate].
Qed.

Lemma startCamera_settle_calls r s w :
  calls (startCamera_settle r s w).1 = calls w.
Proof.
  destruct r as [|l]; [done|]. unfold startCamera_settle, deliver.
  destruct (getVideoTracks _ !! 0%nat) as [track|]; [|done].
  by destruct (caps_width (getCapabilities track)),
              (caps_height (getCapabilities track)).
Qed.

Lemma Forall_advisory_stops l : Forall advisory (TrackStop <$> l).
Proof. induction l; simpl; by constructor. Qed.

(** Every event appends to the log, and what it appends is worded as
    [advisory] says. *)
Lemma step_calls e c :
  ∃ new, calls (step e c).1 = calls c.1 ++ new ∧ Forall advisory new.
Proof.
  destruct c as [w s]. destruct e as [d|r|dataUrl| | | |dt]; simpl.
  - unfold selectDevice. case_decide.
    { exists []. by rewrite app_nil_r. }
    destruct (truthy d); [|exists []; by rewrite app_nil_r].
    rewrite startCamera_request_log. eexists. split; [done|].
    apply Forall_app. split; [apply Forall_advisory_stops|].
    constructor; [apply advisory_requestFor | constructor].
  - exists []. rewrite app_nil_r.
    split; [|constructor].
    destruct (inFlight w); [done | apply startCamera_settle_calls].
  - unfold capturePhoto.
    destruct (videoRef w) as [v|], (canvasRef w) as [canvas|],
             (stream s) as [ms|]; try (exists []; by rewrite app_nil_r).
    destruct (has2d canvas); [|exists []; by rewrite app_nil_r].
    destruct (cameraCapabilities s) as [c|]; simpl;
      rewrite <- app_assoc; eexists; (split; [done|]);
      repeat constructor.
  - unfold downloadPhoto.
    destruct (capturedImage s) as [img|]; [|exists []; by rewrite app_nil_r].
    destruct (truthy img); [|exists []; by rewrite app_nil_r].
    eexists. split; [done|]. repeat constructor.
  - exists []. by rewrite app_nil_r.
  - unfold stopCamera. destruct (stream s) as [ms|]; simpl.
    + rewrite stopTracks_eq; simpl. eexists. split; [done|].
      apply Forall_advisory_stops.
    + exists []. by rewrite app_nil_r.
  - exists []. by rewrite app_nil_r.
Qed.

Lemma run_advisory evs c :
  Forall advisory (calls c.1) → Forall advisory (calls (run evs c).1).
Proof.
  revert c. induction evs as [|e evs IH]; intros c Hc; [done|].
  simpl. apply IH.
  destruct (step_calls e c) as (new & -> & Hnew).
  apply Forall_app. by split.
Qed.

(** X9: in every session, whatever the enumeration returns and whatever
    events follow, each stream request the component has sent asks for 1920 x
    1080 as an ideal, and names its camera either not at all or by a
    non-empty identifier. *)
Theorem session_requests_advisory reply evs :
  Forall advisory (calls (session reply evs).1).
Proof.
  apply run_advisory.
  destruct reply as [devices|]; [|by constructor].
  unfold getCameras.
  destruct (filter _ devices !! 0%nat) as [first|]; [|by constructor].
  destruct (step_calls (EvSelect (info_deviceId first))
              (initialWorld, setCameras (toCameraDevice <$>
                 filter (λ d, info_kind d = videoinput) devices) initialState))
    as (new & Hcalls & Hnew).
  simpl in Hcalls. by rewrite Hcalls.
Qed.

(** ** Taking over and giving back the camera *)

Lemma newTracks_ids n l : trackId <$> newTracks n l = seq n (length l).
Proof.
  revert n. induction l as [|[k c] l IH]; intros n; simpl; [done|].
  by rewrite IH.
Qed.

(** A granted request on a quiet world: the new stream is the only live
    one. *)
Lemma startCamera_settle_live l s w :
  liveStreams w = [] → knownTracks w → l ≠ [] →
  let c := startCamera_settle (Resolved l) s w in
  let ms := {| getTracks := newTracks (nextTrackId w) l |} in
  stream c.2 = Some ms ∧ liveStreams c.1 = [ms].
Proof.
  intros Hnil Hknown Hl c ms.
  assert (streamLive w ms) as Hlive.
  { unfold streamLive. destruct l as [|[k caps] l]; [done|]. simpl.
    apply Exists_cons_hd. unfold trackLive; simpl.
    intros Hin. apply Hknown in Hin. lia. }
  unfold c, startCamera_settle, deliver. fold ms.
  set (w1 := {| videoRef := videoRef w; canvasRef := canvasRef w;
                nextTrackId := (nextTrackId w + length l)%nat;
                ended := ended w; opened := opened w ++ [ms];
                inFlight := pred (inFlight w); calls := calls w;
                clock := clock w |}).
  assert (liveStreams (bindPreview ms w1) = [ms]) as Hone.
  { assert (liveStreams (bindPreview ms w1) =
            filter (streamLive w1) (opened w ++ [ms])) as -> by done.
    rewrite filter_app.
    assert (filter (streamLive w1) (opened w) = liveStreams w) as ->
      by (by apply list_filter_iff).
    rewrite Hnil, filter_cons_True, filter_nil; done. }
  destruct (getVideoTracks ms !! 0%nat) as [track|]; [|done].
  by destruct (caps_width (getCapabilities track)),
              (caps_height (getCapabilities track)).
Qed.

Lemma startCamera_request_known s w :
  wellFormed (w, s) → knownTracks (startCamera_request s w).1.
Proof.
  intros [Hknown Hheld] i. unfold startCamera_request, heldTracks in *.
  simpl in *. destruct (stream s) as [ms|]; [|by apply Hknown].
  rewrite stopTracks_eq; simpl.
  intros [Hi%elem_of_list_to_set | Hi]%elem_of_union;
    [by apply Hheld | by apply Hknown].
Qed.

(** X10: when the only stream that can be live is the one the state holds,
    and the host grants a request with at least one track, [startCamera]
    hands the camera over: afterwards the state holds the new stream, whose
    tracks are new, and it is the one and only live stream. *)
Theorem startCamera_hands_over l s w :
  wellFormed (w, s) → held (stream s) w → l ≠ [] →
  let c := startCamera (Resolved l) s w in
  ∃ ms, stream c.2 = Some ms ∧ liveStreams c.1 = [ms] ∧
        trackId <$> getTracks ms = seq (nextTrackId w) (length l).
Proof.
  intros Hwf Hheld Hl c.
  assert (c = startCamera_settle (Resolved l)
                (setError None (setIsLoading true s))
                (startCamera_request s w).1) as -> by done.
  assert (nextTrackId (startCamera_request s w).1 = nextTrackId w) as Hnext.
  { unfold startCamera_request; simpl.
    destruct (stream s); [by rewrite stopTracks_eq | done]. }
  destruct (startCamera_settle_live l (setError None (setIsLoading true s))
              (startCamera_request s w).1) as [Hs Hlive].
  - by apply startCamera_request_live.
  - by apply startCamera_request_known.
  - done.
  - eexists. split; [exact Hs|]. split; [exact Hlive|].
    rewrite <- Hnext. apply newTracks_ids.
Qed.

Lemma startCamera_hands_over_witness :
  ∃ ms, stream (startCamera (Resolved [(video, hd)]) liveConfig.2
                  liveConfig.1).2 = Some ms ∧
        liveStreams (startCamera (Resolved [(video, hd)]) liveConfig.2
                       liveConfig.1).1 = [ms] ∧
        trackId <$> getTracks ms = [1%nat].
Proof.
  apply (startCamera_hands_over [(video, hd)] liveConfig.2 liveConfig.1).
  - split.
    + intros i Hi. vm_compute in Hi. discriminate Hi.
    + intros i Hi. apply list_elem_of_singleton in Hi as ->.
      vm_compute. lia.
  - right. eexists. split; reflexivity.
  - discriminate.
Defined.

(** X11: [stopCamera] gives the camera back: it calls [stop()] on every
    track of the stream held, in order, and on nothing else, and when no
    other stream was live, none is live afterwards. *)
Theorem stopCamera_releases s w :
  held (stream s) w →
  calls (stopCamera s w).1 = calls w ++ (TrackStop <$> heldTracks s) ∧
  liveStreams (stopCamera s w).1 = [] ∧
  inFlight (stopCamera s w).1 = inFlight w.
Proof.
  intros Hheld. unfold stopCamera, heldTracks.
  destruct (stream s) as [ms|] eqn:Hs; simpl.
  - split; [by rewrite stopTracks_eq|].
    split; [by apply liveStreams_stopTracks | by rewrite stopTracks_eq].
  - split; [by rewrite app_nil_r|]. split; [by apply held_None | done].
Qed.

Lemma stopCamera_releases_witness :
  calls (stopCamera liveConfig.2 liveConfig.1).1 =
    [GetUserMedia (Some "a") 1920 1080; TrackStop 0] ∧
  liveStreams (stopCamera liveConfig.2 liveConfig.1).1 = [].
Proof.
  assert (held (stream liveConfig.2) liveConfig.1) as H
    by (right; eexists; split; reflexivity).
  destruct (stopCamera_releases liveConfig.2 liveConfig.1 H) as (H1 & H2 & _).
  split; [exact H1 | exact H2].
Defined.

(** X12: [stopCamera] does not cancel a request that is in flight: when the
    host grants it afterwards, the state holds a stream again. *)
Theorem stop_while_starting l s w :
  inFlight w ≠ 0%nat →
  let c := run [EvStop; EvSettle (Resolved l)] (w, s) in
  is_Some (stream c.2) ∧ capturedImage c.2 = None ∧ isLoading c.2 = false.
Proof.
  intros Hpending c.
  assert (c = step (EvSettle (Resolved l)) (stopCamera s w)) as -> by done.
  destruct (stopCamera s w) as [w1 s1] eqn:Hstop. unfold step.
  assert (inFlight w1 = inFlight w ∧ capturedImage s1 = None) as [Hi Hc].
  { unfold stopCamera in Hstop.
    destruct (stream s); injection Hstop as <- <-;
      [by rewrite stopTracks_eq | done]. }
  rewrite Hi. destruct (inFlight w) as [|n]; [done|].
  pose proof (startCamera_settle_outcome (Resolved l) s1 w1)
    as (Hload & _ & _ & Himg & _).
  split; [|by rewrite Himg].
  unfold startCamera_settle, deliver.
  destruct (getVideoTracks _ !! 0%nat) as [track|]; [|by eexists].
  by destruct (caps_width (getCapabilities track)),
              (caps_height (getCapabilities track)); eexists.
Qed.

Lemma stop_while_starting_witness :
  is_Some (stream (run [EvStop; EvSettle (Resolved [(video, hd)])]
                     (selectDevice "b" liveConfig.2 liveConfig.1)).2).
Proof.
  exact (proj1 (stop_while_starting [(video, hd)]
                  (selectDevice "b" liveConfig.2 liveConfig.1).2
                  (selectDevice "b" liveConfig.2 liveConfig.1).1
                  ltac:(discriminate))).
Defined.

(** ** Capturing after a start, lines 100-125 *)

(** A capture whose guards pass: what is drawn, and what is stored. *)
Lemma capturePhoto_log dataUrl s w v canvas ms :
  videoRef w = Some v → canvasRef w = Some canvas → has2d canvas = true →
  stream s = Some ms →
  let cw := match cameraCapabilities s with
            | Some c => width c | None => videoWidth v end in
  let ch := match cameraCapabilities s with
            | Some c => height c | None => videoHeight v end in
  calls (capturePhoto dataUrl s w).1 =
    calls w ++ [DrawImage 0 0 (reflectDimension 300 cw)
                  (reflectDimension 150 ch);
                ToDataURL "image/png"] ∧
  capturedImage (capturePhoto dataUrl s w).2 = Some dataUrl.
Proof.
  intros Hv Hc H2d Hs. unfold capturePhoto. rewrite Hv, Hc, Hs, H2d.
  destruct (cameraCapabilities s) as [c|]; simpl;
    by rewrite <- app_assoc.
Qed.

(** A size between 0 and 2147483647 reads back as it was assigned. *)
Lemma reflectDimension_in_range dflt x :
  0 ≤ x ≤ 2147483647 → reflectDimension dflt x = x.
Proof.
  intros Hx. unfold reflectDimension, toUnsignedLong.
  rewrite Z.mod_small by lia.
  destruct (x <=? 2147483647) eqn:Hle; [done|].
  apply Z.leb_gt in Hle. lia.
Qed.

(** The refs after [startCamera]: the canvas is not touched, and a mounted
    video stays mounted with the size it had. *)
Lemma startCamera_refs r s w :
  canvasRef (startCamera r s w).1 = canvasRef w ∧
  (∀ v, videoRef w = Some v →
     ∃ v', videoRef (startCamera r s w).1 = Some v' ∧
           videoWidth v' = videoWidth v ∧ videoHeight v' = videoHeight v).
Proof.
  unfold startCamera, startCamera_request.
  set (w1 := match stream s with Some ms => stopTracks ms w | None => w end).
  assert (canvasRef w1 = canvasRef w ∧ videoRef w1 = videoRef w) as [Hc Hv].
  { unfold w1. destruct (stream s); [by rewrite stopTracks_eq | done]. }
  destruct r as [|l]; simpl.
  { split; [done|]. intros v Hw. exists v. by rewrite Hv. }
  unfold startCamera_settle, deliver. simpl.
  destruct (getVideoTracks _ !! 0%nat) as [track|];
    [destruct (caps_width (getCapabilities track)),
              (caps_height (getCapabilities track))|];
    simpl; (split; [done|]); intros v Hw; rewrite Hv, Hw; by eexists.
Qed.

(** The state after a granted request whose first video track reports
    [caps]. *)
Lemma startCamera_granted l caps s w :
  snd <$> filter (λ p, p.1 = video) l !! 0%nat = Some caps →
  is_Some (stream (startCamera (Resolved l) s w).2) ∧
  cameraCapabilities (startCamera (Resolved l) s w).2 =
    match caps_width caps, caps_height caps with
    | Some cw, Some ch =>
        Some {| width := orDefault (range_max cw) 1920;
                height := orDefault (range_max ch) 1080 |}
    | _, _ => cameraCapabilities s
    end.
Proof.
  intros Hc. unfold startCamera, startCamera_request.
  set (w1 := match stream s with Some ms => stopTracks ms w | None => w end).
  unfold startCamera_settle, deliver. cbn [nextTrackId issue].
  destruct (firstVideoTrack (nextTrackId w1) l caps Hc) as (track & Ht & <-).
  rewrite Ht.
  by destruct (caps_width (getCapabilities track)),
              (caps_height (getCapabilities track)).
Qed.

(** X13: a capture right after a granted start is drawn at the negotiated
    size as the canvas reads it back.  When the first video track reports a
    width and a height range, the canvas is given the two maxima (1920 and
    1080 standing in for a missing one) and the drawing takes the width and
    height the canvas then has: the maxima themselves when they lie between
    0 and 2147483647, the canvas defaults 300 and 150 otherwise.  The data
    URL of that drawing becomes the captured image. *)
Theorem capture_at_negotiated_size l caps cw ch dataUrl s w v canvas :
  snd <$> filter (λ p, p.1 = video) l !! 0%nat = Some caps →
  caps_width caps = Some cw → caps_height caps = Some ch →
  videoRef w = Some v → canvasRef w = Some canvas → has2d canvas = true →
  let c0 := startCamera (Resolved l) s w in
  let c1 := capturePhoto dataUrl c0.2 c0.1 in
  let maxWidth := orDefault (range_max cw) 1920 in
  let maxHeight := orDefault (range_max ch) 1080 in
  calls c1.1 =
    calls c0.1 ++ [DrawImage 0 0 (reflectDimension 300 maxWidth)
                     (reflectDimension 150 maxHeight);
                   ToDataURL "image/png"] ∧
  capturedImage c1.2 = Some dataUrl ∧
  (0 ≤ maxWidth ≤ 2147483647 → 0 ≤ maxHeight ≤ 2147483647 →
   calls c1.1 =
     calls c0.1 ++ [DrawImage 0 0 maxWidth maxHeight;
                    ToDataURL "image/png"]).
Proof.
  intros Hc Hw Hh Hv Hcv H2d c0 c1 maxWidth maxHeight.
  destruct (startCamera_granted l caps s w Hc) as [[ms Hs] Hcaps].
  rewrite Hw, Hh in Hcaps.
  destruct (startCamera_refs (Resolved l) s w) as [Hcanvas Hvideo].
  destruct (Hvideo v Hv) as (v' & Hv' & _).
  rewrite <- Hcanvas in Hcv.
  pose proof (capturePhoto_log dataUrl c0.2 c0.1 v' canvas ms
                Hv' Hcv H2d Hs) as [Hlog Himg].
  unfold c0 in Hlog. rewrite Hcaps in Hlog. cbn [width height] in Hlog.
  fold maxWidth maxHeight in Hlog.
  split; [exact Hlog|]. split; [exact Himg|].
  intros Hwr Hhr. unfold c1, c0. rewrite Hlog.
  by rewrite (reflectDimension_in_range 300 maxWidth Hwr),
             (reflectDimension_in_range 150 maxHeight Hhr).
Qed.

Lemma capture_at_negotiated_size_witness :
  calls (capturePhoto somePng liveConfig.2 liveConfig.1).1 =
    [GetUserMedia (Some "a") 1920 1080; DrawImage 0 0 1280 720;
     ToDataURL "image/png"].
Proof.
  apply (proj2 (proj2 (capture_at_negotiated_size [(video, hd)] hd _ _
                         somePng (setSelectedCamera "a" initialState)
                         initialWorld _ _
                         eq_refl eq_refl eq_refl eq_refl eq_refl eq_refl)));
    simpl; lia.
Defined.

(** A camera that reports the largest [unsigned long] as its maximum width:
    the canvas falls back to its default width, and the drawing is 300
    wide. *)
Example capture_beyond_canvas_range :
  let huge := {| caps_width := Some {| range_max := Some 4294967295;
                                       range_min := None |};
                 caps_height := Some {| range_max := Some 1080;
                                        range_min := None |} |} in
  let c0 := startCamera (Resolved [(video, huge)])
              (setSelectedCamera "a" initialState) initialWorld in
  cameraCapabilities c0.2 = Some {| width := 4294967295; height := 1080 |} ∧
  calls (capturePhoto somePng c0.2 c0.1).1 =
    [GetUserMedia (Some "a") 1920 1080; DrawImage 0 0 300 1080;
     ToDataURL "image/png"].
Proof. by vm_compute. Qed.

(** X14: capabilities outlive their camera.  When the newly granted camera
    reports no width range or no height range, a capture is still sized by
    the capabilities recorded for the camera before it: the canvas is given
    that width and height and the drawing takes what the canvas reads back,
    the recorded size itself when it lies between 0 and 2147483647. *)
Theorem capture_at_stale_size l caps old dataUrl s w v canvas :
  snd <$> filter (λ p, p.1 = video) l !! 0%nat = Some caps →
  caps_width caps = None ∨ caps_height caps = None →
  cameraCapabilities s = Some old →
  videoRef w = Some v → canvasRef w = Some canvas → has2d canvas = true →
  let c0 := startCamera (Resolved l) s w in
  let c1 := capturePhoto dataUrl c0.2 c0.1 in
  calls c1.1 =
    calls c0.1 ++ [DrawImage 0 0 (reflectDimension 300 (width old))
                     (reflectDimension 150 (height old));
                   ToDataURL "image/png"] ∧
  (0 ≤ width old ≤ 2147483647 → 0 ≤ height old ≤ 2147483647 →
   calls c1.1 =
     calls c0.1 ++ [DrawImage 0 0 (width old) (height old);
                    ToDataURL "image/png"]).
Proof.
  intros Hc Hnone Hold Hv Hcv H2d c0 c1.
  destruct (startCamera_granted l caps s w Hc) as [[ms Hs] Hcaps].
  assert (cameraCapabilities c0.2 = Some old) as Hkeep.
  { unfold c0. rewrite Hcaps, Hold.
    destruct Hnone as [-> | ->]; [done | by destruct (caps_width caps)]. }
  destruct (startCamera_refs (Resolved l) s w) as [Hcanvas Hvideo].
  destruct (Hvideo v Hv) as (v' & Hv' & _).
  rewrite <- Hcanvas in Hcv.
  pose proof (capturePhoto_log dataUrl c0.2 c0.1 v' canvas ms
                Hv' Hcv H2d Hs) as [Hlog _].
  rewrite Hkeep in Hlog.
  split; [exact Hlog|].
  intros Hwr Hhr. unfold c1. rewrite Hlog.
  by rewrite (reflectDimension_in_range 300 (width old) Hwr),
             (reflectDimension_in_range 150 (height old) Hhr).
Qed.

Lemma capture_at_stale_size_witness :
  let c0 := startCamera
              (Resolved [(video, {| caps_width := None;
                                    caps_height := None |})])
              (setSelectedCamera "b" liveConfig.2) liveConfig.1 in
  calls (capturePhoto somePng c0.2 c0.1).1 =
    calls c0.1 ++ [DrawImage 0 0 1280 720; ToDataURL "image/png"].
Proof.
  apply (proj2 (capture_at_stale_size
                  [(video, {| caps_width := None; caps_height := None |})]
                  _ {| width := 1280; height := 720 |} somePng
                  (setSelectedCamera "b" liveConfig.2) liveConfig.1 _ _
                  eq_refl (or_introl eq_refl) eq_refl eq_refl eq_refl
                  eq_refl)); simpl; lia.
Defined.

(** ** The file name, line 131 *)

Lemma day_of_second t : t / msPerDay = t / 1000 / 86400.
Proof. unfold msPerDay. by rewrite Z.div_div by lia. Qed.

Lemma second_of_day t : (t mod msPerDay) / 1000 = (t / 1000) mod 86400.
Proof.
  unfold msPerDay. change 86400000 with (1000 * 86400).
  rewrite Z.rem_mul_r by lia.
  rewrite (Z.mul_comm 1000), Z.div_add by lia.
  rewrite Z.mod_div by lia. lia.
Qed.

Lemma hours_of_second t : hours t = (t / 1000) mod 86400 / 3600.
Proof.
  unfold hours. rewrite <- second_of_day.
  change 3600000 with (1000 * 3600). by rewrite Z.div_div by lia.
Qed.

Lemma minutes_of_second t : minutes t = ((t / 1000) mod 86400 / 60) mod 60.
Proof.
  unfold minutes. rewrite <- second_of_day.
  change 60000 with (1000 * 60). by rewrite Z.div_div by lia.
Qed.

Lemma seconds_of_second t : seconds t = ((t / 1000) mod 86400) mod 60.
Proof. unfold seconds. by rewrite second_of_day. Qed.

(** X15: the file name does not tell apart two downloads within the same
    second: for clocks in the years 0 to 9999, two times with the same whole
    number of seconds give the same name, of 38 characters. *)
Theorem downloadName_same_second t t' :
  t / 1000 = t' / 1000 →
  0 ≤ cd_year (civilFromDays (t / msPerDay)) ≤ 9999 →
  downloadName t = downloadName t' ∧
  String.length (downloadName t) = 38%nat.
Proof.
  intros Hsec Hyear.
  assert (t / msPerDay = t' / msPerDay) as Hday
    by (by rewrite !day_of_second, Hsec).
  assert (Hyear' := Hyear). rewrite Hday in Hyear'.
  rewrite (downloadName_shape t Hyear), (downloadName_shape t' Hyear').
  split.
  - unfold dateString.
    rewrite !hours_of_second, !minutes_of_second, !seconds_of_second.
    by rewrite Hday, Hsec.
  - rewrite !length_append, (dateString_length t Hyear), !digits_length.
    reflexivity.
Qed.

Lemma downloadName_same_second_witness :
  downloadName 1793613845123 = downloadName 1793613845999.
Proof.
  apply (downloadName_same_second 1793613845123 1793613845999).
  - reflexivity.
  - vm_compute. split; discriminate.
Defined.

(** X16: each download that finds a non-empty captured image adds exactly
    one click on a link to that image, and nothing else changes: the state,
    the tracks, the refs and the pending requests are as before, so
    downloading again exports the same image again. *)
Theorem downloadPhoto_only_clicks s w img :
  capturedImage s = Some img → img ≠ "" →
  let c1 := downloadPhoto s w in
  let c2 := downloadPhoto c1.2 (tick 1000 c1.1) in
  calls c1.1 = calls w ++ [LinkClick (downloadName (clock w)) img] ∧
  calls c2.1 = calls w ++ [LinkClick (downloadName (clock w)) img;
                           LinkClick (downloadName (clock w + 1000)) img] ∧
  c2.2 = s ∧ ended c2.1 = ended w ∧ inFlight c2.1 = inFlight w ∧
  videoRef c2.1 = videoRef w ∧ canvasRef c2.1 = canvasRef w.
Proof.
  intros Himg Hne c1 c2. apply truthy_nonempty in Hne.
  unfold c2, c1, downloadPhoto. rewrite Himg, Hne. simpl.
  rewrite Himg, Hne. simpl. rewrite <- app_assoc. by repeat split.
Qed.

Lemma downloadPhoto_only_clicks_witness :
  calls (downloadPhoto (setCapturedImage (Some somePng) initialState)
           initialWorld).1 =
  [LinkClick "camera-capture-1970-01-01T00-00-00.png" somePng].
Proof.
  exact (proj1 (downloadPhoto_only_clicks
                  (setCapturedImage (Some somePng) initialState)
                  initialWorld somePng eq_refl ltac:(discriminate))).
Defined.

(** ** After stop and retake, lines 136-146 *)

Lemma capturePhoto_no_stream dataUrl s w :
  stream s = None → capturePhoto dataUrl s w = (w, s).
Proof.
  intros Hs. unfold capturePhoto. rewrite Hs.
  by destruct (videoRef w), (canvasRef w).
Qed.

(** X17: once the camera is stopped there is nothing to capture and nothing
    to download, and selecting the same camera again does not bring the
    stream back: each of the three leaves the configuration as [stopCamera]
    left it. *)
Theorem after_stopCamera dataUrl s w :
  let c := stopCamera s w in
  capturePhoto dataUrl c.2 c.1 = c ∧
  downloadPhoto c.2 c.1 = c ∧
  selectDevice (selectedCamera s) c.2 c.1 = c ∧
  retakePhoto c.2 c.1 = c.
Proof.
  intros c.
  assert (stream c.2 = None ∧ capturedImage c.2 = None ∧
          selectedCamera c.2 = selectedCamera s) as (Hs & Hi & Hsel).
  { unfold c. by rewrite stopCamera_state. }
  destruct c as [w1 s1]; simpl in *. split; [|split; [|split]].
  - by apply capturePhoto_no_stream.
  - unfold downloadPhoto. by rewrite Hi.
  - rewrite <- Hsel. unfold selectDevice. rewrite setSelectedCamera_same.
    by case_decide.
  - unfold retakePhoto. f_equal. destruct s1; simpl in *. by subst.
Qed.

(** ** The rendered view, lines 148-265 *)

(** X18: a button that is offered and enabled has something to act on.
    "Take Photo" is enabled only with a stream in the state and the loading
    flag down, "Stop Camera" only with a stream in the state, and "Download"
    and "Retake" are offered only with a non-empty captured image, in which
    case the download does export it. *)
Theorem enabled_button_acts s w b :
  b ∈ view_buttons (render s) → disabled b = false →
  match onClick b with
  | DoCapture => is_Some (stream s) ∧ isLoading s = false
  | DoStop => is_Some (stream s)
  | DoDownload | DoRetake =>
      ∃ img, capturedImage s = Some img ∧ img ≠ "" ∧
             calls (downloadPhoto s w).1 =
               calls w ++ [LinkClick (downloadName (clock w)) img]
  end.
Proof.
  unfold render; simpl. intros Hb Hen.
  destruct (capturedImage s) as [img|] eqn:Himg; simpl in Hb.
  - destruct (truthy img) eqn:Ht.
    + assert (∃ img', capturedImage s = Some img' ∧ img' ≠ "" ∧
                calls (downloadPhoto s w).1 =
                  calls w ++ [LinkClick (downloadName (clock w)) img']) as H.
      { exists img. split; [done|]. split; [by apply truthy_nonempty|].
        unfold downloadPhoto. by rewrite Himg, Ht. }
      rewrite Himg in H.
      apply elem_of_cons in Hb as [-> | Hb]; [exact H|].
      apply list_elem_of_singleton in Hb as ->. exact H.
    + apply elem_of_cons in Hb as [-> | Hb]; simpl in *.
      * destruct (stream s); [|done]. split; [by eexists|].
        by destruct (isLoading s).
      * apply list_elem_of_singleton in Hb as ->. simpl in *.
        destruct (stream s); [by eexists | done].
  - apply elem_of_cons in Hb as [-> | Hb]; simpl in *.
    + destruct (stream s); [|done]. split; [by eexists|].
      by destruct (isLoading s).
    + apply list_elem_of_singleton in Hb as ->. simpl in *.
      destruct (stream s); [by eexists | done].
Qed.

Lemma enabled_button_acts_witness :
  is_Some (stream liveConfig.2) ∧ isLoading liveConfig.2 = false.
Proof.
  apply (enabled_button_acts liveConfig.2 liveConfig.1
           {| onClick := DoCapture; disabled := false |}).
  - apply list_elem_of_here.
  - reflexivity.
Defined.



(** X20: after a successful enumeration with at least one video input the
    select is consistent: its value is the value of its first entry, there
    is one entry per video input, and no entry has an empty text. *)
Theorem select_consistent devices first s w :
  filter (λ d, info_kind d = videoinput) devices !! 0%nat = Some first →
  let v := render (getCameras (Some devices) s w).2 in
  fst <$> view_options v !! 0%nat = Some (view_value v) ∧
  length (view_options v) =
    length (filter (λ d, info_kind d = videoinput) devices) ∧
  (∀ o, o ∈ view_options v → o.2 ≠ "").
Proof.
  intros Hfirst v.
  assert (view_value v = info_deviceId first) as ->.
  { unfold v, render. cbn [view_value]. by apply getCameras_selected. }
  assert (view_options v =
          (λ camera, (deviceId camera, label camera)) <$>
            (toCameraDevice <$>
               filter (λ d, info_kind d = videoinput) devices)) as ->.
  { unfold v, render. cbn [view_options]. by rewrite getCameras_cameras. }
  split; [|split].
  - rewrite !list_lookup_fmap, Hfirst. done.
  - by rewrite !length_fmap.
  - intros o (camera & -> & (d & -> & _)%list_elem_of_fmap)%list_elem_of_fmap.
    unfold toCameraDevice; simpl.
    destruct (truthy (info_label d)) eqn:Hl; [by apply truthy_nonempty|].
    discriminate.
Qed.

Lemma select_consistent_witness :
  fst <$> view_options
            (render (getCameras (Some scenarioDevices) initialState
                       initialWorld).2) !! 0%nat = Some "a".
Proof.
  exact (proj1 (select_consistent scenarioDevices
                  {| info_deviceId := "a"; info_kind := videoinput;
                     info_label := "" |} initialState initialWorld eq_refl)).
Defined.

(** ** Refs and renders *)

(** X21: the preview does not come back after a retake.  A successful
    capture replaces the video element by the image, so that a further
    capture does nothing; the retake brings a new video element that has no
    source, although the state still holds the same stream and no track was
    stopped. *)
Theorem retake_leaves_blank_preview dataUrl c v canvas ms :
  videoRef c.1 = Some v → canvasRef c.1 = Some canvas → has2d canvas = true →
  stream c.2 = Some ms → dataUrl ≠ "" →
  let c1 := stepRendered (EvCapture dataUrl) c in
  let c2 := stepRendered EvRetake c1 in
  view_preview (render c1.2) = ImagePreview dataUrl ∧
  videoRef c1.1 = None ∧
  (∀ again, step (EvCapture again) c1 = c1) ∧
  view_preview (render c2.2) = VideoPreview (isLoading c.2) ∧
  videoRef c2.1 = Some blankVideo ∧
  stream c2.2 = Some ms ∧ ended c2.1 = ended c.1.
Proof.
  destruct c as [w s]. cbn [fst snd]. intros Hv Hc H2d Hs Hne.
  apply truthy_nonempty in Hne.
  set (w1 := (capturePhoto dataUrl s w).1).
  assert (step (EvCapture dataUrl) (w, s) =
          (w1, setCapturedImage (Some dataUrl) s)) as Hstep.
  { unfold w1. simpl. unfold capturePhoto. rewrite Hv, Hc, Hs, H2d.
    by destruct (cameraCapabilities s). }
  assert (ended w1 = ended w) as Hended by apply capturePhoto_world.
  assert (stepRendered (EvCapture dataUrl) (w, s) =
          ({| videoRef := None;
              canvasRef := match canvasRef w1 with
                           | Some cv => Some cv
                           | None => Some blankCanvas
                           end;
              nextTrackId := nextTrackId w1; ended := ended w1;
              opened := opened w1; inFlight := inFlight w1;
              calls := calls w1; clock := clock w1 |},
           setCapturedImage (Some dataUrl) s)) as ->.
  { unfold stepRendered. rewrite Hstep. unfold commit.
    cbn [capturedImage setCapturedImage truthyOpt]. by rewrite Hne. }
  split; [|split; [|split]].
  - unfold render; simpl. by rewrite Hne.
  - done.
  - intros again. simpl. by unfold capturePhoto.
  - simpl. by rewrite Hs.
Qed.

Lemma retake_leaves_blank_preview_witness :
  videoRef (runRendered [EvCapture somePng; EvRetake] liveConfig).1 =
    Some blankVideo ∧
  is_Some (stream (runRendered [EvCapture somePng; EvRetake] liveConfig).2).
Proof.
  pose proof (retake_leaves_blank_preview somePng liveConfig _ _ _
                eq_refl eq_refl eq_refl eq_refl ltac:(discriminate)) as H.
  simpl in H. destruct H as (_ & _ & _ & _ & H1 & H2 & _).
  split; [exact H1 | by eexists].
Defined.

(** ** What the component never does *)

(** X22: the component stops no track but those of the stream in its state:
    whatever the event, a [stop()] that was not in the log before is a
    [stop()] on a track of the stream held when the event arrived. *)
Theorem stops_only_held_tracks e w s t :
  TrackStop t ∈ calls (step e (w, s)).1 →
  TrackStop t ∈ calls w ∨ t ∈ heldTracks s.
Proof.
  assert (Hin : ∀ l : list nat, TrackStop t ∈ (TrackStop <$> l) → t ∈ l).
  { intros l (i & [= ->] & Hi)%list_elem_of_fmap. done. }
  destruct e as [d|r|dataUrl| | | |dt]; simpl.
  - unfold selectDevice. case_decide; [by left|].
    destruct (truthy d); [|by left].
    rewrite startCamera_request_log. unfold requestFor.
    intros [Hcall | [Hcall | Hcall]%elem_of_app]%elem_of_app; [by left | right |].
    + by apply Hin.
    + by apply list_elem_of_singleton in Hcall.
  - destruct (inFlight w); [by left|].
    rewrite startCamera_settle_calls. by left.
  - unfold capturePhoto.
    destruct (videoRef w) as [v|], (canvasRef w) as [canvas|],
             (stream s) as [ms|]; try by left.
    destruct (has2d canvas); [|by left].
    destruct (cameraCapabilities s) as [c|]; simpl;
      rewrite <- app_assoc;
      (intros [Hcall | Hcall]%elem_of_app; [by left|]);
      apply elem_of_cons in Hcall as [Hcall | Hcall]; try done;
      by apply list_elem_of_singleton in Hcall.
  - unfold downloadPhoto.
    destruct (capturedImage s) as [img|]; [|by left].
    destruct (truthy img); [|by left]. simpl.
    intros [Hcall | Hcall]%elem_of_app; [by left|].
    by apply list_elem_of_singleton in Hcall.
  - by left.
  - unfold stopCamera, heldTracks. destruct (stream s) as [ms|]; [|by left].
    simpl. rewrite stopTracks_eq; simpl.
    intros [Hcall | Hcall]%elem_of_app; [by left | right]. by apply Hin.
  - by left.
Qed.

Lemma stops_only_held_tracks_witness :
  TrackStop 0 ∈ calls liveConfig.1 ∨ 0%nat ∈ heldTracks liveConfig.2.
Proof.
  apply (stops_only_held_tracks EvStop liveConfig.1 liveConfig.2 0).
  apply list_elem_of_further, list_elem_of_here.
Defined.

(** ** The loading flag *)

Lemma capturePhoto_isLoading dataUrl s w :
  isLoading (capturePhoto dataUrl s w).2 = isLoading s.
Proof. by destruct (capturePhoto_state dataUrl s w) as [-> | ->]. Qed.

Lemma loadingIsPending_frame (c c' : Config) :
  inFlight c'.1 = inFlight c.1 → isLoading c'.2 = isLoading c.2 →
  loadingIsPending c → loadingIsPending c'.
Proof. unfold loadingIsPending. by intros -> ->. Qed.

(** X23: in a run in which a selection is made only when no request is in
    flight, the loading flag is up exactly while a request is in flight,
    after every event. *)
Theorem loading_while_pending c c' :
  loadingIsPending c → serialized c c' → loadingIsPending c'.
Proof.
  intros Hinv Hrun.
  induction Hrun as [|[w s] d _ IH Hidle|[w s] e _ IH Hne]; [done| |].
  - simpl in Hidle. simpl. unfold selectDevice.
    case_decide; [by apply (loadingIsPending_frame (w, s))|].
    destruct (truthy d); [|by apply (loadingIsPending_frame (w, s))].
    split; rewrite startCamera_request_inFlight, Hidle; [lia|].
    split; [done|]. intros _. by unfold startCamera_request.
  - destruct e as [d|r|dataUrl| | | |dt]; simpl.
    + by destruct (Hne d).
    + destruct (inFlight w) as [|n] eqn:Hn; [done|].
      destruct IH as [Hle _]. simpl in Hle.
      assert (n = 0%nat) as -> by lia.
      pose proof (startCamera_settle_outcome r s w) as (Hload & _).
      split; rewrite startCamera_settle_inFlight, Hn; simpl; [lia|].
      rewrite Hload. split; intros; done.
    + pose proof (capturePhoto_world dataUrl s w) as (_ & _ & Hi & _).
      apply (loadingIsPending_frame (w, s)); [done| |done].
      apply capturePhoto_isLoading.
    + pose proof (downloadPhoto_world s w) as (_ & _ & Hi & _).
      apply (loadingIsPending_frame (w, s)); [done| |done].
      unfold downloadPhoto. destruct (capturedImage s) as [img|]; [|done].
      by destruct (truthy img).
    + by apply (loadingIsPending_frame (w, s)).
    + apply (loadingIsPending_frame (w, s)); [| |done];
        unfold stopCamera; destruct (stream s) as [ms|]; simpl; try done.
      by rewrite stopTracks_eq.
    + by apply (loadingIsPending_frame (w, s)).
Qed.

Lemma loading_while_pending_witness :
  loadingIsPending
    (step (EvSettle Rejected)
       (step (EvSelect "a") (initialWorld, initialState))).
Proof.
  apply (loading_while_pending (initialWorld, initialState)).
  - split; simpl; [lia | split; discriminate].
  - apply ser_other; [|done]. apply ser_select; [|reflexivity].
    apply ser_here.
Defined.

(** Without that discipline the flag can be down while a request is still
    in flight. *)
Example loading_flag_down_while_pending :
  let c := run [EvSelect "a"; EvSelect "b"; EvSettle Rejected]
               (initialWorld, initialState) in
  isLoading c.2 = false ∧ inFlight c.1 = 1%nat.
Proof. by vm_compute. Qed.
